(** * Instantly SuperSearch example scripts: the filter-refinement loop

    A shallow embedding of [advanced_refinement.py] (the edit function
    [apply_filter_change] and the refinement loop of [main]) and of the
    enrichment steps of [simple_example.py] and [instantly_workflow.py],
    with the properties of the loop stated over it. *)

From Equations Require Import Equations.
From stdpp Require Import gmap strings list fin_maps.
From Stdlib Require Import ZArith Ascii String.

Local Open Scope string_scope.
Local Open Scope Z_scope.
Local Open Scope list_scope.

Set Warnings "-register-all".

(** ** Python values *)

(** The JSON-shaped values that travel through the scripts: what
    [json.loads] produces and what the filter literals contain. A dict is a
    finite map on its string keys. *)
Inductive pyvalue : Type :=
| PNone
| PBool (b : bool)
| PInt (n : Z)
| PStr (s : string)
| PList (l : list pyvalue)
| PDict (d : gmap string pyvalue).

(** The [filters: dict] of the scripts. *)
Abbreviation FilterSet := (gmap string pyvalue).

(** The exceptions the modelled code can raise. *)
Inductive exn : Type :=
| HTTPError       (* [response.raise_for_status()], [requests.post] *)
| AdvisorError    (* anything raised while obtaining the suggestions *)
| AttributeError  (* a method the receiver does not have *)
| KeyError
| NameError.

Inductive result (A : Type) : Type :=
| Ok (a : A)
| Raise (e : exn).
Arguments Ok {A} a.
Arguments Raise {A} e.

(** ** [apply_filter_change] *)

(** One entry of [suggested_changes]: [change["filter"]],
    [change["action"]] and [change["value"]]. *)
Record Edit : Type := mkEdit {
  filter : string;
  action : string;
  value : pyvalue
}.

(** [filter_name in new_filters]. *)
Definition py_in (k : string) (m : FilterSet) : bool :=
  match m !! k with Some _ => true | None => false end.

(** [target.update(value)]: only a dict has the method; the entries of
    [value] override those of the receiver. *)
Definition py_update (target : option pyvalue) (value : gmap string pyvalue)
  : result pyvalue :=
  match target with
  | Some (PDict d) => Ok (PDict (value ∪ d))
  | Some _ => Raise AttributeError
  | None => Raise KeyError
  end.

(** [target.extend(value)]: only a list has the method. *)
Definition py_extend (target : option pyvalue) (value : list pyvalue)
  : result pyvalue :=
  match target with
  | Some (PList l) => Ok (PList (l ++ value))
  | Some _ => Raise AttributeError
  | None => Raise KeyError
  end.

(** The dict the function returns ([new_filters], a copy of [filters]), or
    the exception it raises. The branches follow the source line by line,
    the second membership test of the [add] branch included; the two
    [isinstance] tests are the match on [value]. The copy is shallow, so
    [update] and [extend] also change the nested value held by the
    argument; [main] drops the argument after each call
    ([current_filters = apply_filter_change(current_filters, change)]) and
    a call that raises does so before it changes anything, hence only the
    returned dict is modelled. *)
Definition apply_filter_change (filters : FilterSet) (change : Edit)
  : result FilterSet :=
  let new_filters := filters in
  let filter_name := filter change in
  let value := value change in
  if String.eqb (action change) "set" then
    Ok (<[filter_name := value]> new_filters)
  else if String.eqb (action change) "add" then
    let new_filters :=
      if negb (py_in filter_name new_filters)
      then <[filter_name := PDict ∅]> new_filters else new_filters in
    match value with
    | PDict dv =>
        match py_update (new_filters !! filter_name) dv with
        | Ok merged => Ok (<[filter_name := merged]> new_filters)
        | Raise e => Raise e
        end
    | PList lv =>
        let new_filters :=
          if negb (py_in filter_name new_filters)
          then <[filter_name := PList []]> new_filters else new_filters in
        match py_extend (new_filters !! filter_name) lv with
        | Ok extended => Ok (<[filter_name := extended]> new_filters)
        | Raise e => Raise e
        end
    | _ => Ok new_filters
    end
  else if String.eqb (action change) "remove" then
    if py_in filter_name new_filters
    then Ok (delete filter_name new_filters) else Ok new_filters
  else Ok new_filters.

(** ** Answers typed at a prompt *)

(** [str.lower] and [str.strip] on ASCII text (the prompts expect "y" or
    "yes"; characters outside ASCII are left as they are). *)
Definition ascii_lower (c : ascii) : ascii :=
  let n := nat_of_ascii c in
  if ((65 <=? n) && (n <=? 90))%nat then ascii_of_nat (n + 32) else c.

Fixpoint lower (s : string) : string :=
  match s with
  | EmptyString => EmptyString
  | String c rest => String (ascii_lower c) (lower rest)
  end.

Definition is_space (c : ascii) : bool :=
  let n := nat_of_ascii c in
  (((9 <=? n) && (n <=? 13)) || ((28 <=? n) && (n <=? 32)))%nat.

Fixpoint lstrip (s : string) : string :=
  match s with
  | String c rest => if is_space c then lstrip rest else s
  | EmptyString => EmptyString
  end.

Fixpoint rstrip (s : string) : string :=
  match s with
  | EmptyString => EmptyString
  | String c rest =>
      match rstrip rest with
      | EmptyString => if is_space c then EmptyString else String c EmptyString
      | kept => String c kept
      end
  end.

Definition strip (s : string) : string := rstrip (lstrip s).

(** [user_input.lower() == 'y'], the test of the prompts inside the loop. *)
Definition says_y (answer : string) : bool := String.eqb (lower answer) "y".

(** [input(...).strip().lower() in ['yes', 'y']], the test of the
    enrichment prompt. *)
Definition says_yes (answer : string) : bool :=
  let proceed := lower (strip answer) in
  String.eqb proceed "yes" || String.eqb proceed "y".

(** ** The outside world of [advanced_refinement.main] *)

(** What the loop reads of the dict returned by
    [get_ai_refinement_suggestions]: [suggestions['recommendation']] and
    [suggestions.get('suggested_changes')]. A reply that lacks one of the
    printed keys raises inside the [try] block and is a failure of the call. *)
Record Suggestions : Type := mkSuggestions {
  recommendation : string;
  suggested_changes : list Edit
}.

(** The [input(...)] prompts: the four of [main] (the last one is also
    the prompt of [simple_example.py]) and the two of
    [run_workflow_example]. *)
Inductive prompt : Type :=
| ContinueAnyway     (* "Continue anyway? (y/n): " *)
| ApplyChanges       (* "Apply these changes? (y/n): " *)
| EnterOwn           (* "Enter your own filter adjustments? (y/n): " *)
| ProceedEnrichment  (* "Proceed with enrichment? (yes/no): " *)
| ApplySuggested     (* "Apply suggested changes and continue? (y/n): " *)
| ProceedEnriching.  (* "Proceed with enriching N leads? (y/n): " *)

(** One run's environment. Every call below happens at most once per
    iteration, so an answer indexed by the iteration number describes any
    behaviour of the services and of the user. [HTTPError] stands for
    whatever [requests.post] or [raise_for_status] raises. *)
Record World : Type := mkWorld {
  (* [preview_search(filters)] of the given iteration:
     [preview.get("count", 0)], or the exception raised *)
  preview_search : nat -> FilterSet -> result Z;
  (* [get_ai_refinement_suggestions(filters, count, goal, iteration,
     previous_counts)] *)
  get_ai_refinement_suggestions :
    FilterSet -> Z -> string -> nat -> list Z -> result Suggestions;
  (* the line typed at a prompt in the given iteration *)
  input : prompt -> nat -> string;
  (* [response.status_code] of the enrich request *)
  post_enrich : FilterSet -> Z -> result Z
}.

(** The requests and prompts of a run, in the order they happen. *)
Inductive event : Type :=
| EvPreview (filters : FilterSet)
| EvAdvise (iteration : nat)
| EvInput (p : prompt) (answer : string)
| EvEnrich (filters : FilterSet) (limit : Z).

(** The local variables of [main] that the loop body assigns, and the
    events so far. [count] is unbound until the first preview returns. *)
Record Vars : Type := mkVars {
  current_filters : FilterSet;
  previous_counts : list Z;
  count : option Z;
  log : list event
}.

Definition emit (e : event) (v : Vars) : Vars :=
  mkVars (current_filters v) (previous_counts v) (count v) (log v ++ [e]).

Definition set_filters (f : FilterSet) (v : Vars) : Vars :=
  mkVars f (previous_counts v) (count v) (log v).

(** [count = ...; previous_counts.append(count)]. *)
Definition record_count (c : Z) (v : Vars) : Vars :=
  mkVars (current_filters v) (previous_counts v ++ [c]) (Some c) (log v).

(** The three [break] statements of the loop. *)
Inductive break_reason : Type :=
| AIProceed        (* "AI recommends proceeding with enrichment!" *)
| ChangesDeclined  (* changes not applied and no manual adjustment *)
| CountLooksGood.  (* "Lead count looks good!" in the [except] block *)

(** How a block of the loop body ends. *)
Inductive flow : Type :=
| Fallthrough
| Break (r : break_reason)
| Return
| Raised (e : exn).

(** [for change in suggestions['suggested_changes']:
       current_filters = apply_filter_change(current_filters, change)].
    When a call raises, [current_filters] keeps the changes before it. *)
Fixpoint apply_changes (filters : FilterSet) (changes : list Edit)
  : FilterSet * option exn :=
  match changes with
  | [] => (filters, None)
  | change :: rest =>
      match apply_filter_change filters change with
      | Ok filters' => apply_changes filters' rest
      | Raise e => (filters, Some e)
      end
  end.

(** The [try] block of the loop body (from "Getting AI analysis"). *)
Definition try_block (w : World) (goal : string) (iteration : nat) (c : Z)
    (v : Vars) : flow * Vars :=
  let v := emit (EvAdvise iteration) v in
  match get_ai_refinement_suggestions w (current_filters v) c goal iteration
          (previous_counts v) with
  | Raise e => (Raised e, v)
  | Ok suggestions =>
      if String.eqb (recommendation suggestions) "proceed" then
        (Break AIProceed, v)
      else
        let '(cancelled, v) :=
          if String.eqb (recommendation suggestions) "pivot" then
            let user_input := input w ContinueAnyway iteration in
            (negb (says_y user_input),
             emit (EvInput ContinueAnyway user_input) v)
          else (false, v) in
        if cancelled then (Return, v)
        else
          match suggested_changes suggestions with
          | [] => (Fallthrough, v)
          | changes =>
              let apply := input w ApplyChanges iteration in
              let v := emit (EvInput ApplyChanges apply) v in
              if says_y apply then
                match apply_changes (current_filters v) changes with
                | (filters, None) => (Fallthrough, set_filters filters v)
                | (filters, Some e) => (Raised e, set_filters filters v)
                end
              else
                let manual := input w EnterOwn iteration in
                let v := emit (EvInput EnterOwn manual) v in
                if says_y manual then (Fallthrough, v)
                else (Break ChangesDeclined, v)
          end
  end.

(** The manual rule of the [except] block. *)
Inductive advice : Type :=
| SuggestNarrow    (* "Add more filters to narrow results" *)
| SuggestBroaden   (* "Broaden filters or expand geography" *)
| LooksGood.       (* "Lead count looks good!" *)

Definition manual_fallback (c : Z) : advice :=
  if c >? 2000 then SuggestNarrow
  else if c <? 500 then SuggestBroaden
  else LooksGood.

(** [except Exception as e:]: only the last branch leaves the loop. *)
Definition except_block (c : Z) : flow :=
  match manual_fallback c with
  | SuggestNarrow => Fallthrough
  | SuggestBroaden => Fallthrough
  | LooksGood => Break CountLooksGood
  end.

(** One pass through the body of the [while] loop, up to but excluding
    [iteration += 1]. The preview is outside the [try]: what it raises
    leaves the body. *)
Definition loop_body (w : World) (goal : string) (iteration : nat)
    (v : Vars) : flow * Vars :=
  let v := emit (EvPreview (current_filters v)) v in
  match preview_search w iteration (current_filters v) with
  | Raise e => (Raised e, v)
  | Ok c =>
      let v := record_count c v in
      match try_block w goal iteration c v with
      | (Raised _, v) => (except_block c, v)
      | done => done
      end
  end.

(** ** The [while] loop and [main] *)

(** How the loop is left: the condition fails ("Max iterations reached"), a
    [break], the [return] of a declined pivot, or an uncaught exception. *)
Inductive loop_exit : Type :=
| CondFalse
| Broke (r : break_reason)
| Returned
| Uncaught (e : exn).

(** [while iteration <= MAX_ITERATIONS: body; iteration += 1]. The result
    holds the value of [iteration] when the loop is left. *)
Equations? loop (w : World) (goal : string) (max_iterations : nat)
    (iteration : nat) (v : Vars) : loop_exit * nat * Vars
  by wf (S max_iterations - iteration)%nat lt :=
loop w goal max_iterations iteration v
  with decide (iteration <= max_iterations)%nat := {
  | right _ => (CondFalse, iteration, v)
  | left _ with loop_body w goal iteration v := {
      | (Fallthrough, v') => loop w goal max_iterations (S iteration) v'
      | (Break r, v') => (Broke r, iteration, v')
      | (Return, v') => (Returned, iteration, v')
      | (Raised e, v') => (Uncaught e, iteration, v') } }.
Proof. lia. Qed.

(** The constants of the script. *)
Definition MAX_ITERATIONS : nat := 5.

Definition goal_text : string :=
  "
    Find CEOs and Founders at technology companies in Colorado that are:
    - Growth stage (not too small, not too large)
    - Likely to be open to sales outreach
    - In a position to make purchasing decisions
    ".

Definition starting_filters : FilterSet :=
  {[ "locations" :=
       PDict {[ "include" :=
                  PList [PDict {[ "country" := PStr "US";
                                  "state" := PStr "CO" ]}];
                "exclude" := PList [] ]};
     "job_titles" :=
       PDict {[ "include" :=
                  PList [PStr "CEO"; PStr "Chief Executive Officer";
                         PStr "Founder"; PStr "Co-Founder"];
                "exclude" := PList [PStr "Assistant"; PStr "Associate"] ]};
     "management_levels" := PList [PStr "c_level"] ]}.

(** How [main] ends. *)
Inductive outcome : Type :=
| Cancelled                      (* "Refinement cancelled", the [return] *)
| Crashed (e : exn)              (* an exception left [main] *)
| EnrichmentStarted              (* status code 200 *)
| EnrichmentError (status : Z)   (* "Error starting enrichment" *)
| EnrichmentDeclined.            (* "Enrichment cancelled" *)

(** The part of [main] after the loop ("Final decision"). Printing
    [count] fails when the loop never assigned it. *)
Definition final_decision (w : World) (iteration : nat) (v : Vars)
  : outcome * Vars :=
  match count v with
  | None => (Crashed NameError, v)
  | Some c =>
      let proceed := input w ProceedEnrichment iteration in
      let v := emit (EvInput ProceedEnrichment proceed) v in
      if says_yes proceed then
        let limit := Z.min c 1000 in
        let v := emit (EvEnrich (current_filters v) limit) v in
        match post_enrich w (current_filters v) limit with
        | Raise e => (Crashed e, v)
        | Ok status =>
            if status =? 200 then (EnrichmentStarted, v)
            else (EnrichmentError status, v)
        end
      else (EnrichmentDeclined, v)
  end.

Definition initial_vars (filters : FilterSet) : Vars :=
  mkVars filters [] None [].

(** [main], with its goal, its starting filters and [MAX_ITERATIONS] as
    parameters. *)
Definition main (w : World) (goal : string) (max_iterations : nat)
    (filters : FilterSet) : outcome * Vars :=
  match loop w goal max_iterations 1 (initial_vars filters) with
  | (Returned, _, v) => (Cancelled, v)
  | (Uncaught e, _, v) => (Crashed e, v)
  | (_, iteration, v) => final_decision w iteration v
  end.

(** The loop exits under the names of the specification's
    [terminal_reason]; the script itself keeps no such field. An uncaught
    exception has none. *)
Inductive terminal_reason : Type :=
| target_reached
| user_declined
| advisor_pivot_declined
| exhausted.

Definition terminal_reason_of (e : loop_exit) : option terminal_reason :=
  match e with
  | CondFalse => Some exhausted
  | Broke AIProceed => Some target_reached
  | Broke CountLooksGood => Some target_reached
  | Broke ChangesDeclined => Some user_declined
  | Returned => Some advisor_pivot_declined
  | Uncaught _ => None
  end.

(** ** Reading a log *)

Definition is_preview (e : event) : bool :=
  match e with EvPreview _ => true | _ => false end.

Definition is_enrich (e : event) : bool :=
  match e with EvEnrich _ _ => true | _ => false end.

(** The number of lead-count evaluations in a log. *)
Definition evaluations (l : list event) : nat :=
  List.length (List.filter is_preview l).

(** The events of the [try] block: the advisor call and the three prompts
    inside the loop. *)
Definition inner_event (e : event) : bool :=
  match e with
  | EvAdvise _ => true
  | EvInput ContinueAnyway _ | EvInput ApplyChanges _ | EvInput EnterOwn _ =>
      true
  | _ => false
  end.

(** The events of the loop: previews and events of the [try] block. *)
Definition loop_event (e : event) : bool := is_preview e || inner_event e.

(** The variables after a preview that returned [c] and an advisor call
    that asked for no prompt. *)
Definition after_advice (iteration : nat) (c : Z) (v : Vars) : Vars :=
  emit (EvAdvise iteration)
    (record_count c (emit (EvPreview (current_filters v)) v)).

(** What follows the loop events in the log of [main]: nothing, a declined
    enrichment prompt, or an accepted prompt and then the enrichment
    request, limited to the last recorded count capped at 1000. *)
Inductive run_tail (w : World) (v : Vars) : list event -> Prop :=
| TailNone : run_tail w v []
| TailDeclined iteration :
    says_yes (input w ProceedEnrichment iteration) = false ->
    run_tail w v
      [EvInput ProceedEnrichment (input w ProceedEnrichment iteration)]
| TailEnrich iteration c :
    says_yes (input w ProceedEnrichment iteration) = true ->
    last (previous_counts v) = Some c ->
    run_tail w v
      [EvInput ProceedEnrichment (input w ProceedEnrichment iteration);
       EvEnrich (current_filters v) (Z.min c 1000)].

(** ** Taking the JSON out of the advisor's reply *)

(** [text.find(sub, start)]: the index of the first occurrence of [sub] at
    or after [start], or -1. *)
Definition py_find (text sub : string) (start : nat) : Z :=
  match String.index start sub text with
  | Some i => Z.of_nat i
  | None => -1
  end.

(** [sub in text]. *)
Definition py_contains (text sub : string) : bool :=
  match String.index 0 sub text with
  | Some _ => true
  | None => false
  end.

(** [text[start:stop]] for a start that is not negative: a negative stop
    counts from the end, and both ends are clipped to the text. *)
Definition py_slice (text : string) (start : nat) (stop : Z) : string :=
  let len := Z.of_nat (String.length text) in
  let stop := if stop <? 0 then Z.max 0 (stop + len) else Z.min stop len in
  String.substring start (Z.to_nat stop - start) text.

(** The end of [get_ai_refinement_suggestions], between the reply of the
    model and [json.loads]: the text handed to the JSON parser. *)
Definition extract_json (response_text : string) : string :=
  if py_contains response_text "```json" then
    let json_start := Z.to_nat (py_find response_text "```json" 0 + 7) in
    let json_end := py_find response_text "```" json_start in
    strip (py_slice response_text json_start json_end)
  else response_text.

(** No backtick in a text. *)
Fixpoint no_backtick (s : string) : bool :=
  match s with
  | EmptyString => true
  | String c rest => negb (Ascii.eqb c "`") && no_backtick rest
  end.

(** ** [simple_example.py] *)

Module SimpleExample.

Definition search_filters : FilterSet :=
  {[ "locations" :=
       PDict {[ "include" :=
                  PList [PDict {[ "country" := PStr "US";
                                  "state" := PStr "CO" ]}];
                "exclude" := PList [] ]};
     "job_titles" :=
       PDict {[ "include" :=
                  PList [PStr "CEO"; PStr "Chief Executive Officer";
                         PStr "Founder"; PStr "Co-Founder";
                         PStr "President"];
                "exclude" := PList [PStr "Assistant to the CEO";
                                    PStr "Executive Assistant"] ]};
     "management_levels" := PList [PStr "c_level"];
     "company_size" := PDict {[ "min" := PInt 10; "max" := PInt 500 ]} ]}.

Record World : Type := mkWorld {
  (* [response.status_code] and [preview_data.get("count", 0)] of the
     preview request *)
  preview : result (Z * Z);
  (* whether [ANTHROPIC_API_KEY] is set to a key *)
  has_anthropic_key : bool;
  (* the line typed at "Proceed with enrichment? (yes/no): " *)
  answer : string;
  (* [enrichment_response.status_code] *)
  enrich : result Z
}.

Inductive ending : Type :=
| Exited (code : Z)
| Failed (e : exn)
| Enriched.   (* steps 6 and 7 only read the job status and print *)

(** Steps 2 to 5 of the script. The AI analysis of step 3 only prints;
    without a key, a count of zero exits. *)
Definition script (w : World) : ending * list event :=
  let log := [EvPreview search_filters] in
  match preview w with
  | Raise e => (Failed e, log)
  | Ok (status_code, lead_count) =>
      if negb (status_code =? 200) then (Exited 1, log)
      else
        let '(no_leads, log) :=
          if has_anthropic_key w then (false, log ++ [EvAdvise 1])
          else (lead_count =? 0, log) in
        if no_leads then (Exited 1, log)
        else
          let proceed := answer w in
          let log := log ++ [EvInput ProceedEnrichment proceed] in
          if negb (says_yes proceed) then (Exited 0, log)
          else
            let enrichment_limit := Z.min lead_count 1000 in
            let log := log ++ [EvEnrich search_filters enrichment_limit] in
            match enrich w with
            | Raise e => (Failed e, log)
            | Ok status_code =>
                if negb (status_code =? 200) then (Exited 1, log)
                else (Enriched, log)
            end
  end.

(** A run that previews 350 leads, has no advisor key, and is
    accepted ([sample_accepts]) or declined ([sample_declines]). *)
Definition sample_accepts : World := mkWorld (Ok (200, 350)) false "yes" (Ok 200).
Definition sample_declines : World := mkWorld (Ok (200, 350)) false "no" (Ok 200).

End SimpleExample.

(** ** [instantly_workflow.py] *)

Module Workflow.

Definition manual_filters : FilterSet :=
  {[ "locations" :=
       PDict {[ "include" :=
                  PList [PDict {[ "country" := PStr "US";
                                  "state" := PStr "CO" ]}];
                "exclude" := PList [] ]};
     "job_titles" :=
       PDict {[ "include" :=
                  PList [PStr "CEO"; PStr "Chief Executive Officer";
                         PStr "Founder"; PStr "Co-Founder"];
                "exclude" := PList [] ]};
     "management_levels" := PList [PStr "c_level"];
     "industries" := PList [PStr "Technology"; PStr "Software"; PStr "SaaS"];
     "company_size" := PDict {[ "min" := PInt 10; "max" := PInt 200 ]} ]}.

Record World : Type := mkWorld {
  (* [refiner.suggest_filters_from_description(goal)]: the empty dict when
     there is no key or the call fails *)
  suggest_filters_from_description : FilterSet;
  (* [instantly.preview_leads(search_filters).count] *)
  preview_leads : FilterSet -> result Z;
  (* the truth value of [analysis.get('proceed_with_enrichment')] in the
     given iteration; raises when the analysis lacks a printed key *)
  analyze_search_results : nat -> result bool;
  (* the line typed at a prompt in the given iteration *)
  input : prompt -> nat -> string;
  (* [instantly.enrich_leads(...)], which ends in [raise_for_status] *)
  enrich_leads : FilterSet -> Z -> result unit
}.

(** [for iteration in range(1, max_iterations + 1)], over the iterations
    left: the loop changes neither the filters nor the previewed result. *)
Fixpoint refine (w : World) (iterations : list nat) (log : list event)
  : option exn * list event :=
  match iterations with
  | [] => (None, log)
  | iteration :: rest =>
      let log := log ++ [EvAdvise iteration] in
      match analyze_search_results w iteration with
      | Raise e => (Some e, log)
      | Ok proceed_with_enrichment =>
          if proceed_with_enrichment then (None, log)
          else
            let user_input := input w ApplySuggested iteration in
            let log := log ++ [EvInput ApplySuggested user_input] in
            if negb (says_y user_input) then (None, log)
            else refine w rest log
      end
  end.

Inductive ending : Type :=
| Failed (e : exn)
| Enriched
| Declined.

Definition run_workflow_example (w : World) : ending * list event :=
  let initial_filters := suggest_filters_from_description w in
  let search_filters :=
    if decide (size initial_filters = 0%nat) then manual_filters
    else initial_filters in
  let log := [EvPreview search_filters] in
  match preview_leads w search_filters with
  | Raise e => (Failed e, log)
  | Ok result_count =>
      let max_iterations := 3%nat in
      match refine w (seq 1 max_iterations) log with
      | (Some e, log) => (Failed e, log)
      | (None, log) =>
          let proceed := input w ProceedEnriching 0 in
          let log := log ++ [EvInput ProceedEnriching proceed] in
          if says_y proceed then
            let limit := Z.min result_count 1000 in
            let log := log ++ [EvEnrich search_filters limit] in
            match enrich_leads w search_filters limit with
            | Raise e => (Failed e, log)
            | Ok _ => (Enriched, log)
            end
          else (Declined, log)
      end
  end.

(** The extraction of [analyze_search_results] and
    [suggest_filters_from_description]: as in [advanced_refinement.py],
    with a second branch for a fence without the "json" tag. *)
Definition extract_json (response_text : string) : string :=
  if py_contains response_text "```json" then
    let json_start := Z.to_nat (py_find response_text "```json" 0 + 7) in
    let json_end := py_find response_text "```" json_start in
    strip (py_slice response_text json_start json_end)
  else if py_contains response_text "```" then
    let json_start := Z.to_nat (py_find response_text "```" 0 + 3) in
    let json_end := py_find response_text "```" json_start in
    strip (py_slice response_text json_start json_end)
  else response_text.

(** ["proceed_with_enrichment"] of [_manual_refinement_prompt], the
    analysis returned when there is no client or the call to it fails. *)
Definition manual_refinement_prompt (count : Z) : bool :=
  (count >? 0) && (count <? 10000).

(** The truth value of an optional string and of an optional dict. *)
Definition str_truthy (o : option string) : bool :=
  match o with
  | Some (String _ _) => true
  | _ => false
  end.

Definition dict_truthy (o : option (gmap string pyvalue)) : bool :=
  match o with
  | Some d => negb (bool_decide (size d = 0%nat))
  | None => false
  end.

(** The [payload] that [InstantlyAIClient.enrich_leads] posts. *)
Definition enrich_payload (search_filters : FilterSet) (limit : Z)
    (list_name resource_id : option string)
    (enrichment_options : option (gmap string pyvalue))
  : gmap string pyvalue :=
  let payload : gmap string pyvalue :=
    {[ "search_filters" := PDict search_filters; "limit" := PInt limit ]} in
  let payload :=
    if str_truthy list_name
    then <["list_name" := PStr (default EmptyString list_name)]> payload
    else payload in
  let payload :=
    if str_truthy resource_id
    then <["resource_id" := PStr (default EmptyString resource_id)]> payload
    else payload in
  if dict_truthy enrichment_options
  then <["enrichment_payload" := PDict (default ∅ enrichment_options)]> payload
  else payload.

(** The analyses of a run. *)
Definition is_advise (e : event) : bool :=
  match e with EvAdvise _ => true | _ => false end.

(** [quick_example], the short variant next to [run_workflow_example]: one
    preview and, for a count from 100 to 5000, an enrichment request with
    the fixed limit 500 and no prompt. *)
Definition quick_filters : FilterSet :=
  {[ "locations" :=
       PDict {[ "include" :=
                  PList [PDict {[ "country" := PStr "US";
                                  "state" := PStr "CO" ]}] ]};
     "job_titles" :=
       PDict {[ "include" :=
                  PList [PStr "CEO"; PStr "Chief Executive Officer"] ]};
     "management_levels" := PList [PStr "c_level"] ]}.

Definition quick_example (preview_leads : FilterSet -> result Z)
  : list event :=
  let log := [EvPreview quick_filters] in
  match preview_leads quick_filters with
  | Raise _ => log
  | Ok result_count =>
      if (100 <=? result_count) && (result_count <=? 5000)
      then log ++ [EvEnrich quick_filters 500]
      else log
  end.

(** A run without suggested filters that previews 4200 leads, is told to
    proceed in the first iteration, and is accepted. *)
Definition sample_accepts : World :=
  mkWorld ∅ (fun _ => Ok 4200) (fun _ => Ok true) (fun _ _ => "Y")
          (fun _ _ => Ok tt).

End Workflow.

(** ** Getting to an iteration *)

(** [reaches w goal max_iterations i v j v']: the loop, at the head of
    iteration [i] with variables [v], gets to the head of iteration [j] with
    variables [v'], every pass in between having fallen through to
    [iteration += 1]. [main] enters the loop at iteration 1 with
    [initial_vars]. *)
Inductive reaches (w : World) (goal : string) (max_iterations : nat)
  : nat -> Vars -> nat -> Vars -> Prop :=
| reaches_here i v : reaches w goal max_iterations i v i v
| reaches_next i v v1 j v' :
    (i <= max_iterations)%nat ->
    loop_body w goal i v = (Fallthrough, v1) ->
    reaches w goal max_iterations (S i) v1 j v' ->
    reaches w goal max_iterations i v j v'.

(** ** A change as a dict *)

(** The [change: dict] argument of [apply_filter_change] with the keys it
    may lack: [main] prints [change.get('value')], so a change without a
    value gets as far as [apply_filter_change]. Where present, "filter" and
    "action" are strings. *)
Record Change : Type := mkChange {
  change_filter : option string;
  change_action : option string;
  change_value : option pyvalue
}.

(** [apply_filter_change] on such a dict: the three subscripts
    [change["filter"]], [change["action"]], [change["value"]] come first,
    in this order, and each raises [KeyError] on a missing key. *)
Definition apply_filter_change_dict (filters : FilterSet) (change : Change)
  : result FilterSet :=
  match change_filter change with
  | None => Raise KeyError
  | Some filter_name =>
      match change_action change with
      | None => Raise KeyError
      | Some action =>
          match change_value change with
          | None => Raise KeyError
          | Some value =>
              apply_filter_change filters (mkEdit filter_name action value)
          end
      end
  end.

(** ** Sample worlds *)

(** The preview endpoint answers with an error status in every iteration. *)
Definition world_preview_down : World :=
  mkWorld (fun _ _ => Raise HTTPError)
          (fun _ _ _ _ _ => Ok (mkSuggestions "proceed" []))
          (fun _ _ => "y")
          (fun _ _ => Ok 200).

(** The advisor answers "refine" without any change, on a count of 50. *)
Definition world_empty_refine : World :=
  mkWorld (fun _ _ => Ok 50)
          (fun _ _ _ _ _ => Ok (mkSuggestions "refine" []))
          (fun _ _ => "n")
          (fun _ _ => Ok 200).

(** The advisor answers "proceed" on a count of 1200; the user then
    declines the enrichment. *)
Definition world_always_proceed : World :=
  mkWorld (fun _ _ => Ok 1200)
          (fun _ _ _ _ _ => Ok (mkSuggestions "proceed" []))
          (fun _ _ => "no")
          (fun _ _ => Ok 200).

(** The advisor call fails on a count of [c]; the user accepts the
    enrichment. *)
Definition world_advisor_down_at (c : Z) : World :=
  mkWorld (fun _ _ => Ok c)
          (fun _ _ _ _ _ => Raise AdvisorError)
          (fun _ _ => " Yes ")
          (fun _ _ => Ok 200).

Definition world_advisor_down : World := world_advisor_down_at 1200.

(** The first preview returns 50 and the advisor answers "refine" without
    changes; from the second iteration on the preview endpoint is down. *)
Definition world_preview_fails_later : World :=
  mkWorld (fun iteration _ =>
             if (iteration =? 1)%nat then Ok 50 else Raise HTTPError)
          (fun _ _ _ _ _ => Ok (mkSuggestions "refine" []))
          (fun _ _ => "y")
          (fun _ _ => Ok 200).

(** The advisor answers "refine" without changes in the first iteration and
    "pivot" from the second on; the user answers "n" everywhere. *)
Definition world_pivot_later : World :=
  mkWorld (fun _ _ => Ok 9000)
          (fun _ _ _ iteration _ =>
             if (iteration =? 1)%nat then Ok (mkSuggestions "refine" [])
             else Ok (mkSuggestions "pivot" []))
          (fun _ _ => "n")
          (fun _ _ => Ok 200).

(** * Properties *)

(** ** Sample evaluations *)

Example apply_set_ex :
  apply_filter_change ∅ (mkEdit "a" "set" (PInt 1)) = Ok {["a" := PInt 1]}.
Proof. vm_compute. reflexivity. Qed.

Example says_yes_ex : says_yes "  YES " = true /\ says_yes "no" = false.
Proof. split; reflexivity. Qed.

Example advisor_down_run :
  fst (main world_advisor_down goal_text MAX_ITERATIONS starting_filters)
    = EnrichmentStarted /\
  log (snd (main world_advisor_down goal_text MAX_ITERATIONS starting_filters))
    = [EvPreview starting_filters; EvAdvise 1;
       EvInput ProceedEnrichment " Yes "; EvEnrich starting_filters 1000].
Proof. split; vm_compute; reflexivity. Qed.

(** ** Unfolding the loop *)

Lemma loop_step w goal max_iterations iteration v :
  loop w goal max_iterations iteration v =
  if decide (iteration <= max_iterations)%nat then
    match loop_body w goal iteration v with
    | (Fallthrough, v') => loop w goal max_iterations (S iteration) v'
    | (Break r, v') => (Broke r, iteration, v')
    | (Return, v') => (Returned, iteration, v')
    | (Raised e, v') => (Uncaught e, iteration, v')
    end
  else (CondFalse, iteration, v).
Proof.
  simp loop. destruct (decide (iteration <= max_iterations)%nat); simpl.
  - destruct (loop_body w goal iteration v) as [[ | r | | e] v']; reflexivity.
  - reflexivity.
Qed.

(** ** What one pass through the body does to the variables *)

Lemma evaluations_app l1 l2 :
  evaluations (l1 ++ l2) = (evaluations l1 + evaluations l2)%nat.
Proof. unfold evaluations. rewrite List.filter_app, List.length_app. reflexivity. Qed.

Lemma inner_no_evaluation evs :
  forallb inner_event evs = true -> evaluations evs = 0%nat.
Proof.
  induction evs as [| e evs IH]; simpl; [reflexivity |].
  intros H. apply andb_prop in H as [He Hevs].
  unfold evaluations in *. simpl.
  destruct e; simpl in *; try discriminate; auto.
Qed.

Lemma inner_is_loop_event evs :
  forallb inner_event evs = true -> forallb loop_event evs = true.
Proof.
  induction evs as [| e evs IH]; simpl; [reflexivity |].
  intros H. apply andb_prop in H as [He Hevs].
  unfold loop_event at 1. rewrite He, orb_true_r. simpl. auto.
Qed.

#[local] Arguments apply_changes : simpl never.

(** The [try] block appends only its own events and leaves the counts
    alone. *)
Lemma try_block_effect w goal iteration c v :
  exists evs,
    log (snd (try_block w goal iteration c v)) = log v ++ evs /\
    forallb inner_event evs = true /\
    previous_counts (snd (try_block w goal iteration c v))
      = previous_counts v /\
    count (snd (try_block w goal iteration c v)) = count v.
Proof.
  unfold try_block.
  destruct (get_ai_refinement_suggestions _ _ _ _ _ _) as [s | e]; simpl.
  2: { exists [EvAdvise iteration]. auto. }
  destruct (String.eqb (recommendation s) "proceed"); simpl.
  { exists [EvAdvise iteration]. auto. }
  destruct (String.eqb (recommendation s) "pivot"); simpl;
    [destruct (says_y (input w ContinueAnyway iteration)); simpl |].
  all: destruct (suggested_changes s) as [| ch rest]; simpl.
  all: try destruct (says_y (input w ApplyChanges iteration)); simpl.
  all: try destruct (says_y (input w EnterOwn iteration)); simpl.
  all: try match goal with
       | |- context [apply_changes ?f ?l] =>
           destruct (apply_changes f l) as [f' [e |]]; simpl
       end.
  all: eexists; rewrite <- ?app_assoc; simpl; (split; [reflexivity | auto]).
Qed.

(** One pass previews once, then runs the [try] block; only a failing
    preview makes the pass raise. *)
Lemma loop_body_effect w goal iteration v :
  exists evs,
    log (snd (loop_body w goal iteration v))
      = log v ++ EvPreview (current_filters v) :: evs /\
    forallb inner_event evs = true /\
    ((exists e,
        preview_search w iteration (current_filters v) = Raise e /\
        loop_body w goal iteration v
          = (Raised e, emit (EvPreview (current_filters v)) v)) \/
     (exists c,
        preview_search w iteration (current_filters v) = Ok c /\
        previous_counts (snd (loop_body w goal iteration v))
          = previous_counts v ++ [c] /\
        count (snd (loop_body w goal iteration v)) = Some c /\
        forall e, fst (loop_body w goal iteration v) <> Raised e)).
Proof.
  unfold loop_body. simpl.
  destruct (preview_search w iteration (current_filters v)) as [c | e].
  - set (v1 := record_count c (emit (EvPreview (current_filters v)) v)).
    destruct (try_block_effect w goal iteration c v1)
      as (evs & Hlog & Hin & Hpc & Hc).
    exists evs. split; [| split; [exact Hin | right; exists c]].
    + destruct (try_block w goal iteration c v1) as [[ | r | | e] v2];
        simpl in *; rewrite Hlog; unfold v1; simpl;
        rewrite <- app_assoc; reflexivity.
    + split; [reflexivity |].
      destruct (try_block w goal iteration c v1) as [[ | r | | e] v2];
        simpl in *; rewrite Hpc, Hc; unfold v1; simpl;
        (split; [reflexivity | split; [reflexivity |]]);
        intros e'; try discriminate.
      unfold except_block. destruct (manual_fallback c); discriminate.
  - exists []. split; [reflexivity | split; [reflexivity | left]].
    exists e. split; reflexivity.
Qed.

(** ** What the whole loop does *)

(** From any iteration on, the loop appends only loop events, previews at
    most once per remaining iteration, and keeps [count] equal to the last
    recorded count. *)
Lemma loop_effect w goal max_iterations :
  forall (n iteration : nat) (v : Vars),
    (S max_iterations - iteration <= n)%nat ->
    exists evs,
      log (snd (loop w goal max_iterations iteration v)) = log v ++ evs /\
      forallb loop_event evs = true /\
      (evaluations evs <= S max_iterations - iteration)%nat /\
      (List.length (previous_counts (snd (loop w goal max_iterations iteration v)))
         <= List.length (previous_counts v) + evaluations evs)%nat /\
      (count v = last (previous_counts v) ->
       count (snd (loop w goal max_iterations iteration v))
         = last (previous_counts (snd (loop w goal max_iterations iteration v)))).
Proof.
  induction n as [| n IH]; intros iteration v Hn; rewrite loop_step;
    destruct (decide (iteration <= max_iterations)%nat) as [Hle | Hgt];
    try lia.
  1, 3: exists []; simpl; rewrite app_nil_r;
    repeat split; auto; unfold evaluations; simpl; lia.
  destruct (loop_body_effect w goal iteration v)
    as (evs & Hlog & Hin & Hcase).
  assert (Hev : evaluations (EvPreview (current_filters v) :: evs) = 1%nat).
  { change (EvPreview (current_filters v) :: evs)
      with ([EvPreview (current_filters v)] ++ evs).
    rewrite evaluations_app, (inner_no_evaluation _ Hin). reflexivity. }
  assert (Hloop : forallb loop_event (EvPreview (current_filters v) :: evs)
                  = true).
  { simpl. apply inner_is_loop_event. exact Hin. }
  assert (Hpc : (List.length (previous_counts (snd (loop_body w goal iteration v)))
                 <= List.length (previous_counts v) + 1)%nat /\
                (count v = last (previous_counts v) ->
                 count (snd (loop_body w goal iteration v))
                 = last (previous_counts (snd (loop_body w goal iteration v))))).
  { destruct Hcase as [(e & _ & Hb) | (c & _ & Hp & Hc & _)].
    - rewrite Hb. simpl. split; [lia | auto].
    - rewrite Hp, Hc, List.length_app, last_snoc. simpl. split; [lia | auto]. }
  destruct Hpc as [Hlen Hlast].
  destruct (loop_body w goal iteration v) as [[ | r | | e] v'] eqn:Hbody;
    simpl in *.
  2-4: exists (EvPreview (current_filters v) :: evs);
    rewrite Hev; repeat split; auto; lia.
  destruct (IH (S iteration) v' ltac:(lia))
    as (evs' & Hlog' & Hloop' & Hev' & Hlen' & Hlast').
  exists ((EvPreview (current_filters v) :: evs) ++ evs').
  rewrite Hlog', Hlog, <- app_assoc. split; [reflexivity |].
  rewrite forallb_app, evaluations_app, Hev. simpl in Hloop.
  repeat split.
  - simpl. rewrite Hloop, Hloop'. reflexivity.
  - lia.
  - lia.
  - auto.
Qed.

(** ** Edits: [set], [remove], [add] *)

(** C7. Applying the edit [{set, x, v}] to a FilterSet [F] succeeds and
    yields [F] with key [x] mapped to [v]: [x] reads [v] and every other
    key [y] reads what it read in [F]. *)
Theorem set_replaces_category (F : FilterSet) (x y : string) (v : pyvalue) :
  y <> x ->
  exists F',
    apply_filter_change F (mkEdit x "set" v) = Ok F' /\
    F' = <[x := v]> F /\
    F' !! x = Some v /\
    F' !! y = F !! y.
Proof.
  intros Hne. exists (<[x := v]> F). unfold apply_filter_change. simpl.
  repeat split.
  - apply lookup_insert_eq.
  - apply lookup_insert_ne. congruence.
Qed.

Lemma set_replaces_category_witness :
  "locations" <> "company_size" /\
  exists F',
    apply_filter_change starting_filters
      (mkEdit "company_size" "set"
         (PDict {[ "min" := PInt 20; "max" := PInt 150 ]})) = Ok F' /\
    F' !! "locations" = starting_filters !! "locations".
Proof.
  assert (Hne : "locations" <> "company_size") by discriminate.
  split; [exact Hne |].
  destruct (set_replaces_category starting_filters "company_size" "locations"
              (PDict {[ "min" := PInt 20; "max" := PInt 150 ]}) Hne)
    as (F' & Happly & _ & _ & Hother).
  exists F'. split; [exact Happly | exact Hother].
Defined.

Lemma py_in_false (x : string) (F : FilterSet) :
  F !! x = None -> py_in x F = false.
Proof. unfold py_in. intros ->. reflexivity. Qed.

Lemma py_in_true (x : string) (F : FilterSet) (v : pyvalue) :
  F !! x = Some v -> py_in x F = true.
Proof. unfold py_in. intros ->. reflexivity. Qed.

(** What [remove] returns. *)
Lemma remove_result (F : FilterSet) (x : string) (v : pyvalue) :
  apply_filter_change F (mkEdit x "remove" v) = Ok (delete x F).
Proof.
  unfold apply_filter_change, py_in. simpl.
  destruct (F !! x) eqn:Hx; [reflexivity |].
  rewrite delete_id by exact Hx. reflexivity.
Qed.

(** C9. Applying the edit [{remove, x, _}] succeeds and yields a FilterSet
    without [x] that agrees with [F] on every other key; when [x] is
    already absent the result is [F] itself, so removing twice is the same
    as removing once. *)
Theorem remove_deletes_category (F : FilterSet) (x : string) (v : pyvalue) :
  exists F',
    apply_filter_change F (mkEdit x "remove" v) = Ok F' /\
    F' !! x = None /\
    (forall y, y <> x -> F' !! y = F !! y) /\
    (F !! x = None -> F' = F) /\
    apply_filter_change F' (mkEdit x "remove" v) = Ok F'.
Proof.
  exists (delete x F). rewrite !remove_result. repeat split.
  - apply lookup_delete_eq.
  - intros y Hne. apply lookup_delete_ne. congruence.
  - intros Hx. apply delete_id. exact Hx.
  - f_equal. apply delete_id. apply lookup_delete_eq.
Qed.

Lemma remove_deletes_category_witness :
  starting_filters !! "industries" = None /\
  apply_filter_change starting_filters (mkEdit "industries" "remove" PNone)
    = Ok starting_filters.
Proof.
  assert (Habsent : starting_filters !! "industries" = None)
    by (vm_compute; reflexivity).
  split; [exact Habsent |].
  destruct (remove_deletes_category starting_filters "industries" PNone)
    as (F' & Happly & _ & _ & Hsame & _).
  rewrite Happly. f_equal. apply Hsame. exact Habsent.
Defined.

(** [add] of a dict: the category is created when absent and merged into
    when it holds a dict. *)
Lemma add_dict_absent (F : FilterSet) (x : string) (dv : gmap string pyvalue) :
  F !! x = None ->
  apply_filter_change F (mkEdit x "add" (PDict dv)) = Ok (<[x := PDict dv]> F).
Proof.
  intros Hx. unfold apply_filter_change. simpl.
  rewrite (py_in_false _ _ Hx). simpl. rewrite lookup_insert_eq. simpl.
  rewrite insert_insert_eq, (right_id_L ∅ (∪)). reflexivity.
Qed.

Lemma add_dict_present (F : FilterSet) (x : string)
    (d dv : gmap string pyvalue) :
  F !! x = Some (PDict d) ->
  apply_filter_change F (mkEdit x "add" (PDict dv))
    = Ok (<[x := PDict (dv ∪ d)]> F).
Proof.
  intros Hx. unfold apply_filter_change. cbn [filter action value].
  repeat (rewrite (py_in_true _ _ _ Hx); cbn [negb]).
  rewrite Hx. reflexivity.
Qed.

(** [add] of a list extends a category that holds a list. *)
Lemma add_list_present (F : FilterSet) (x : string) (l lv : list pyvalue) :
  F !! x = Some (PList l) ->
  apply_filter_change F (mkEdit x "add" (PList lv))
    = Ok (<[x := PList (l ++ lv)]> F).
Proof.
  intros Hx. unfold apply_filter_change. cbn [filter action value].
  repeat (rewrite (py_in_true _ _ _ Hx); cbn [negb]).
  rewrite Hx. reflexivity.
Qed.

(** [add] of a list to an absent category: the first membership test has
    already stored an empty dict under the key, the second test is then
    false, and [extend] is called on that dict. *)
Lemma add_list_absent (F : FilterSet) (x : string) (lv : list pyvalue) :
  F !! x = None ->
  apply_filter_change F (mkEdit x "add" (PList lv)) = Raise AttributeError.
Proof.
  intros Hx. unfold apply_filter_change. simpl.
  rewrite (py_in_false _ _ Hx). simpl.
  unfold py_in. rewrite lookup_insert_eq. cbn [negb].
  rewrite lookup_insert_eq. reflexivity.
Qed.

(** C2. Adding a list value to an absent category does not yield the
    category holding that list: on the starting filters of [main], which
    have no "industries" key, the edit [{add, "industries", ["Software"]}]
    raises [AttributeError]. *)
Theorem add_list_to_absent_category_raises :
  starting_filters !! "industries" = None /\
  apply_filter_change starting_filters
    (mkEdit "industries" "add" (PList [PStr "Software"]))
  = Raise AttributeError.
Proof. split; vm_compute; reflexivity. Qed.

(** ** Single passes through the loop body *)

Lemma loop_body_advisor_raises w goal iteration v c e :
  preview_search w iteration (current_filters v) = Ok c ->
  get_ai_refinement_suggestions w (current_filters v) c goal iteration
    (previous_counts v ++ [c]) = Raise e ->
  loop_body w goal iteration v = (except_block c, after_advice iteration c v).
Proof.
  intros Hprev Hadv. unfold loop_body, try_block. simpl.
  rewrite Hprev. simpl. rewrite Hadv. reflexivity.
Qed.

Lemma loop_body_proceed w goal iteration v c s :
  preview_search w iteration (current_filters v) = Ok c ->
  get_ai_refinement_suggestions w (current_filters v) c goal iteration
    (previous_counts v ++ [c]) = Ok s ->
  recommendation s = "proceed" ->
  loop_body w goal iteration v = (Break AIProceed, after_advice iteration c v).
Proof.
  intros Hprev Hadv Hrec. unfold loop_body, try_block. simpl.
  rewrite Hprev. simpl. rewrite Hadv, Hrec. reflexivity.
Qed.

Lemma loop_body_empty_refine w goal iteration v c s :
  preview_search w iteration (current_filters v) = Ok c ->
  get_ai_refinement_suggestions w (current_filters v) c goal iteration
    (previous_counts v ++ [c]) = Ok s ->
  recommendation s = "refine" ->
  suggested_changes s = [] ->
  loop_body w goal iteration v = (Fallthrough, after_advice iteration c v).
Proof.
  intros Hprev Hadv Hrec Hch. unfold loop_body, try_block. simpl.
  rewrite Hprev. simpl. rewrite Hadv, Hrec, Hch. reflexivity.
Qed.

(** ** Failure of the preview *)

(** C1 fails as stated: with the preview endpoint down, [main] ends with
    the uncaught [HTTPError] right after the first preview request; no
    advice, fallback or prompt follows. *)
Lemma preview_failure_crashes_main :
  main world_preview_down goal_text MAX_ITERATIONS starting_filters
  = (Crashed HTTPError,
     mkVars starting_filters [] None [EvPreview starting_filters]).
Proof. vm_compute. reflexivity. Qed.

(** Getting to an iteration does not change what the loop returns, and
    adds only events of the loop to the log. *)
Lemma reaches_loop w goal max_iterations i v j v' :
  reaches w goal max_iterations i v j v' ->
  loop w goal max_iterations i v = loop w goal max_iterations j v'.
Proof.
  induction 1 as [i v | i v v1 j v' Hle Hbody _ IH]; [reflexivity |].
  rewrite loop_step. destruct (decide _) as [_ | Hgt]; [| lia].
  rewrite Hbody. exact IH.
Qed.

Lemma reaches_log w goal max_iterations i v j v' :
  reaches w goal max_iterations i v j v' ->
  forallb loop_event (log v) = true ->
  forallb loop_event (log v') = true.
Proof.
  induction 1 as [i v | i v v1 j v' Hle Hbody _ IH]; intros Hlog;
    [exact Hlog |].
  apply IH.
  destruct (loop_body_effect w goal i v) as (evs & Hl & Hin & _).
  rewrite Hbody in Hl. cbn [snd] in Hl.
  rewrite Hl, forallb_app, Hlog. simpl.
  apply inner_is_loop_event. exact Hin.
Qed.

(** C1, amended. A preview that raises is not caught: the loop is left at
    once with that exception, after the preview request alone. In
    whichever iteration of a run this happens, [main] ends with that
    exception, and its log holds only previews, advisor calls and prompts
    of the loop: no enrichment prompt and no enrichment request. What
    raises inside the [try] block, the advisor call or an edit, is caught
    instead, and the pass ends as the manual rule says. *)
Theorem preview_failure_aborts w goal max_iterations iteration v e :
  (iteration <= max_iterations)%nat ->
  preview_search w iteration (current_filters v) = Raise e ->
  loop w goal max_iterations iteration v
    = (Uncaught e, iteration, emit (EvPreview (current_filters v)) v) /\
  (forall F,
     reaches w goal max_iterations 1 (initial_vars F) iteration v ->
     main w goal max_iterations F
       = (Crashed e, emit (EvPreview (current_filters v)) v) /\
     forallb loop_event (log (snd (main w goal max_iterations F))) = true) /\
  (forall w' i' v' c e',
     preview_search w' i' (current_filters v') = Ok c ->
     fst (try_block w' goal i' c
            (record_count c (emit (EvPreview (current_filters v')) v')))
       = Raised e' ->
     fst (loop_body w' goal i' v') = except_block c).
Proof.
  intros Hle Hprev.
  assert (Hloop : loop w goal max_iterations iteration v
                  = (Uncaught e, iteration,
                     emit (EvPreview (current_filters v)) v)).
  { rewrite loop_step. destruct (decide _) as [_ | Hgt]; [| lia].
    unfold loop_body. simpl. rewrite Hprev. reflexivity. }
  split; [exact Hloop | split].
  - intros F Hreach.
    assert (Hmain : main w goal max_iterations F
                    = (Crashed e, emit (EvPreview (current_filters v)) v)).
    { unfold main. rewrite (reaches_loop _ _ _ _ _ _ _ Hreach), Hloop.
      reflexivity. }
    split; [exact Hmain |].
    rewrite Hmain. cbn [snd emit log].
    rewrite forallb_app, (reaches_log _ _ _ _ _ _ _ Hreach eq_refl).
    reflexivity.
  - intros w' i' v' c e' Hc Htry. unfold loop_body. simpl.
    rewrite Hc. simpl in Htry |- *.
    destruct (try_block w' goal i' c _) as [fl v2]. cbn [fst] in Htry.
    subst fl. reflexivity.
Qed.

Lemma preview_failure_aborts_witness :
  main world_preview_fails_later goal_text MAX_ITERATIONS starting_filters
  = (Crashed HTTPError,
     emit (EvPreview starting_filters)
       (after_advice 1 50 (initial_vars starting_filters))) /\
  main world_preview_down goal_text MAX_ITERATIONS starting_filters
  = (Crashed HTTPError,
     emit (EvPreview starting_filters) (initial_vars starting_filters)).
Proof.
  split.
  - destruct (preview_failure_aborts world_preview_fails_later goal_text
                MAX_ITERATIONS 2
                (after_advice 1 50 (initial_vars starting_filters)) HTTPError)
      as (_ & Hmain & _).
    + unfold MAX_ITERATIONS. lia.
    + reflexivity.
    + apply (Hmain starting_filters).
      apply (reaches_next _ _ _ 1%nat (initial_vars starting_filters)
               (after_advice 1 50 (initial_vars starting_filters))).
      * unfold MAX_ITERATIONS. lia.
      * reflexivity.
      * apply reaches_here.
  - destruct (preview_failure_aborts world_preview_down goal_text
                MAX_ITERATIONS 1 (initial_vars starting_filters) HTTPError)
      as (_ & Hmain & _).
    + unfold MAX_ITERATIONS. lia.
    + reflexivity.
    + apply (Hmain starting_filters). apply reaches_here.
Defined.

(** ** A recommendation to refine without changes *)

(** C3 fails as stated: when the advisor answers "refine" with no changes
    the pass falls through to the next iteration, where an answer
    "proceed" breaks; with three iterations allowed the loop previews three
    times on unchanged filters and is left by its condition. *)
Lemma empty_refine_continues :
  fst (loop_body world_empty_refine goal_text 1
         (initial_vars starting_filters)) = Fallthrough /\
  fst (loop_body world_always_proceed goal_text 1
         (initial_vars starting_filters)) = Break AIProceed /\
  loop world_empty_refine goal_text 3 1 (initial_vars starting_filters)
  = (CondFalse, 4%nat,
     mkVars starting_filters [50; 50; 50] (Some 50)
       [EvPreview starting_filters; EvAdvise 1;
        EvPreview starting_filters; EvAdvise 2;
        EvPreview starting_filters; EvAdvise 3]).
Proof. repeat split; vm_compute; reflexivity. Qed.

(** C3, amended. In an iteration where the advisor answers "refine" with
    an empty list of changes, the controller asks nothing and applies
    nothing: the pass falls through with the filters unchanged, and the
    loop goes on with the next iteration. *)
Theorem empty_refine_goes_on w goal max_iterations iteration v c s :
  (iteration <= max_iterations)%nat ->
  preview_search w iteration (current_filters v) = Ok c ->
  get_ai_refinement_suggestions w (current_filters v) c goal iteration
    (previous_counts v ++ [c]) = Ok s ->
  recommendation s = "refine" ->
  suggested_changes s = [] ->
  loop_body w goal iteration v = (Fallthrough, after_advice iteration c v) /\
  current_filters (after_advice iteration c v) = current_filters v /\
  loop w goal max_iterations iteration v
    = loop w goal max_iterations (S iteration) (after_advice iteration c v).
Proof.
  intros Hle Hprev Hadv Hrec Hch.
  pose proof (loop_body_empty_refine w goal iteration v c s
                Hprev Hadv Hrec Hch) as Hbody.
  repeat split; [exact Hbody |].
  rewrite loop_step at 1. destruct (decide _) as [_ | Hgt]; [| lia].
  rewrite Hbody. reflexivity.
Qed.

Lemma empty_refine_goes_on_witness :
  loop_body world_empty_refine goal_text 1 (initial_vars starting_filters)
  = (Fallthrough, after_advice 1 50 (initial_vars starting_filters)).
Proof.
  apply (empty_refine_goes_on world_empty_refine goal_text MAX_ITERATIONS 1
           (initial_vars starting_filters) 50 (mkSuggestions "refine" [])).
  - unfold MAX_ITERATIONS. lia.
  - reflexivity.
  - reflexivity.
  - reflexivity.
  - reflexivity.
Defined.

(** ** An advisor that always answers "proceed" *)

(** C5. When the first preview returns a count and the advisor answers
    "proceed" on every call, the loop is left in iteration 1 by the
    "proceed" break, after exactly one evaluation and with a history of
    length 1; that exit is the terminal reason [target_reached]. *)
Theorem always_proceed_stops_at_first w goal max_iterations F c :
  (1 <= max_iterations)%nat ->
  preview_search w 1 F = Ok c ->
  (forall f c' g i h, exists s,
      get_ai_refinement_suggestions w f c' g i h = Ok s /\
      recommendation s = "proceed") ->
  exists v,
    loop w goal max_iterations 1 (initial_vars F) = (Broke AIProceed, 1%nat, v) /\
    terminal_reason_of (Broke AIProceed) = Some target_reached /\
    previous_counts v = [c] /\
    evaluations (log v) = 1%nat /\
    count v = Some c /\
    current_filters v = F.
Proof.
  intros Hmax Hprev Hadv.
  destruct (Hadv F c goal 1%nat [c]) as (s & Hs & Hrec).
  exists (after_advice 1 c (initial_vars F)).
  split; [| repeat split].
  rewrite loop_step. destruct (decide _) as [_ | Hgt]; [| lia].
  rewrite (loop_body_proceed w goal 1 (initial_vars F) c s Hprev Hs Hrec).
  reflexivity.
Qed.

Lemma always_proceed_stops_at_first_witness :
  exists v,
    loop world_always_proceed goal_text MAX_ITERATIONS 1
      (initial_vars starting_filters) = (Broke AIProceed, 1%nat, v) /\
    previous_counts v = [1200].
Proof.
  destruct (always_proceed_stops_at_first world_always_proceed goal_text
              MAX_ITERATIONS starting_filters 1200)
    as (v & Hloop & _ & Hcounts & _).
  - unfold MAX_ITERATIONS. lia.
  - reflexivity.
  - intros f c' g i h. exists (mkSuggestions "proceed" []).
    split; reflexivity.
  - exists v. split; [exact Hloop | exact Hcounts].
Defined.

(** ** The manual fallback *)

(** C6. When the advisor call fails, the pass ends as the manual rule on
    the previewed count says and leaves the filters alone: above 2000 the
    rule suggests narrowing and below 500 broadening, and the loop goes
    on; from 500 to 2000, bounds included, the count "looks good" and the
    loop is left, as on "proceed". *)
Theorem manual_fallback_rule w goal iteration v c e :
  preview_search w iteration (current_filters v) = Ok c ->
  get_ai_refinement_suggestions w (current_filters v) c goal iteration
    (previous_counts v ++ [c]) = Raise e ->
  fst (loop_body w goal iteration v) = except_block c /\
  current_filters (snd (loop_body w goal iteration v)) = current_filters v /\
  (c > 2000 ->
   manual_fallback c = SuggestNarrow /\ except_block c = Fallthrough) /\
  (c < 500 ->
   manual_fallback c = SuggestBroaden /\ except_block c = Fallthrough) /\
  (500 <= c <= 2000 ->
   manual_fallback c = LooksGood /\ except_block c = Break CountLooksGood /\
   terminal_reason_of (Broke CountLooksGood) = Some target_reached).
Proof.
  intros Hprev Hadv.
  rewrite (loop_body_advisor_raises w goal iteration v c e Hprev Hadv).
  split; [reflexivity | split; [reflexivity |]].
  unfold except_block, manual_fallback.
  split; [| split]; intros Hc;
    destruct (Z.gtb_spec c 2000); try lia;
    destruct (Z.ltb_spec c 500); try lia; repeat split.
Qed.

Lemma manual_fallback_rule_witness :
  fst (loop_body (world_advisor_down_at 2001) goal_text 1
         (initial_vars starting_filters)) = Fallthrough /\
  fst (loop_body (world_advisor_down_at 499) goal_text 1
         (initial_vars starting_filters)) = Fallthrough /\
  fst (loop_body (world_advisor_down_at 500) goal_text 1
         (initial_vars starting_filters)) = Break CountLooksGood /\
  fst (loop_body (world_advisor_down_at 2000) goal_text 1
         (initial_vars starting_filters)) = Break CountLooksGood.
Proof.
  split; [| split; [| split]].
  - destruct (manual_fallback_rule (world_advisor_down_at 2001) goal_text 1
                (initial_vars starting_filters) 2001 AdvisorError
                eq_refl eq_refl) as (Hflow & _ & Hnarrow & _ & _).
    rewrite Hflow. apply Hnarrow. lia.
  - destruct (manual_fallback_rule (world_advisor_down_at 499) goal_text 1
                (initial_vars starting_filters) 499 AdvisorError
                eq_refl eq_refl) as (Hflow & _ & _ & Hbroaden & _).
    rewrite Hflow. apply Hbroaden. lia.
  - destruct (manual_fallback_rule (world_advisor_down_at 500) goal_text 1
                (initial_vars starting_filters) 500 AdvisorError
                eq_refl eq_refl) as (Hflow & _ & _ & _ & Hgood).
    rewrite Hflow. apply Hgood. lia.
  - destruct (manual_fallback_rule (world_advisor_down_at 2000) goal_text 1
                (initial_vars starting_filters) 2000 AdvisorError
                eq_refl eq_refl) as (Hflow & _ & _ & _ & Hgood).
    rewrite Hflow. apply Hgood. lia.
Defined.

(** ** The shape of a whole run *)

Lemma loop_event_not_enrich e : loop_event e = true -> is_enrich e = false.
Proof. destruct e; simpl; intros H; try reflexivity; discriminate. Qed.

Lemma loop_events_not_enrich evs e :
  forallb loop_event evs = true -> In e evs -> is_enrich e = false.
Proof.
  intros Hall Hin. apply loop_event_not_enrich.
  rewrite List.forallb_forall in Hall. apply Hall. exact Hin.
Qed.

Lemma final_decision_effect w iteration v :
  count v = last (previous_counts v) ->
  exists tail,
    log (snd (final_decision w iteration v)) = log v ++ tail /\
    previous_counts (snd (final_decision w iteration v)) = previous_counts v /\
    current_filters (snd (final_decision w iteration v)) = current_filters v /\
    run_tail w v tail.
Proof.
  intros Hcount. unfold final_decision.
  destruct (count v) as [c |] eqn:Hc.
  2: { exists []. simpl. rewrite app_nil_r. repeat split. constructor. }
  simpl. destruct (says_yes (input w ProceedEnrichment iteration)) eqn:Hyes.
  - exists [EvInput ProceedEnrichment (input w ProceedEnrichment iteration);
            EvEnrich (current_filters v) (Z.min c 1000)].
    destruct (post_enrich w (current_filters v) (Z.min c 1000)) as [st | e];
      [destruct (st =? 200) |]; simpl; rewrite <- app_assoc;
      (repeat split; [apply TailEnrich; [exact Hyes | congruence]]).
  - exists [EvInput ProceedEnrichment (input w ProceedEnrichment iteration)].
    simpl. repeat split. apply TailDeclined. exact Hyes.
Qed.

(** The log of [main] is the events of the loop followed by a tail. *)
Lemma main_shape w goal max_iterations F :
  exists evs tail,
    log (snd (main w goal max_iterations F)) = evs ++ tail /\
    forallb loop_event evs = true /\
    (evaluations evs <= max_iterations)%nat /\
    (List.length (previous_counts (snd (main w goal max_iterations F)))
       <= max_iterations)%nat /\
    run_tail w (snd (main w goal max_iterations F)) tail.
Proof.
  destruct (loop_effect w goal max_iterations max_iterations 1
              (initial_vars F) ltac:(lia))
    as (evs & Hlog & Hloop & Hev & Hlen & Hlast).
  specialize (Hlast eq_refl). simpl in Hlog, Hlen.
  unfold main.
  destruct (loop w goal max_iterations 1 (initial_vars F))
    as [[ex iteration] v] eqn:Hrun. simpl in *.
  assert (Hstop : exists tail,
             log v = evs ++ tail /\ run_tail w v tail).
  { exists []. rewrite app_nil_r. split; [exact Hlog | constructor]. }
  destruct (final_decision_effect w iteration v Hlast)
    as (tail & Hflog & Hfpc & Hff & Htail).
  assert (Hfinal : exists tail,
             log (snd (final_decision w iteration v)) = evs ++ tail /\
             run_tail w (snd (final_decision w iteration v)) tail).
  { exists tail. rewrite Hflog, Hlog. split; [reflexivity |].
    destruct Htail as [| i Hno | i c Hyes Hl].
    - constructor.
    - constructor. exact Hno.
    - rewrite <- Hff. constructor; [exact Hyes | rewrite Hfpc; exact Hl]. }
  destruct ex as [| r | | e]; simpl.
  1, 2: destruct Hfinal as (t & Ht & Hrt); exists evs, t;
        rewrite Hfpc; repeat split; auto; lia.
  1, 2: destruct Hstop as (t & Ht & Hrt); exists evs, t;
        repeat split; auto; lia.
Qed.

Lemma run_tail_no_evaluation w v tail :
  run_tail w v tail -> evaluations tail = 0%nat.
Proof. intros []; reflexivity. Qed.

(** ** Termination within [max_iterations] evaluations *)

(** C4. For every world, goal, starting FilterSet and bound, [main]
    returns, and its run holds at most [max_iterations] preview requests
    (and as many recorded counts at most). *)
Theorem loop_bounded_evaluations w goal max_iterations F :
  exists o v,
    main w goal max_iterations F = (o, v) /\
    (evaluations (log v) <= max_iterations)%nat /\
    (List.length (previous_counts v) <= max_iterations)%nat.
Proof.
  destruct (main_shape w goal max_iterations F)
    as (evs & tail & Hlog & _ & Hev & Hlen & Htail).
  destruct (main w goal max_iterations F) as [o v]. simpl in *.
  exists o, v. split; [reflexivity |].
  rewrite Hlog, evaluations_app, (run_tail_no_evaluation _ _ _ Htail).
  split; lia.
Qed.

(** ** Enrichment only on confirmation *)

(** Where an enrichment request sits in a log that ends with one and has
    none before. *)
Lemma enrich_position (evs : list event) x f' l' pre f lim post :
  (forall e, In e evs -> is_enrich e = false) ->
  is_enrich x = false ->
  evs ++ [x; EvEnrich f' l'] = pre ++ EvEnrich f lim :: post ->
  pre = evs ++ [x] /\ post = [] /\ f = f' /\ lim = l'.
Proof.
  revert pre. induction evs as [| e evs IH]; intros pre Hevs Hx Heq.
  - destruct pre as [| p [| q pre]]; simpl in Heq.
    + injection Heq as -> _. discriminate.
    + injection Heq as -> Hf Hl Hp. auto.
    + injection Heq as _ _ Hnil. destruct pre; discriminate.
  - destruct pre as [| p pre]; simpl in Heq.
    + injection Heq as -> _.
      specialize (Hevs _ (or_introl eq_refl)). discriminate.
    + injection Heq as -> Heq.
      destruct (IH pre) as (-> & -> & -> & ->); auto.
      intros e' He'. apply Hevs. right. exact He'.
Qed.

(** The log of [simple_example.py] either holds no enrichment request, or
    ends with the accepted prompt and the request. *)
Lemma simple_script_shape (w : SimpleExample.World) :
  (forall e, In e (snd (SimpleExample.script w)) -> is_enrich e = false) \/
  (exists pre status c,
     SimpleExample.preview w = Ok (status, c) /\
     says_yes (SimpleExample.answer w) = true /\
     (forall e, In e pre -> is_enrich e = false) /\
     snd (SimpleExample.script w)
       = pre ++ [EvInput ProceedEnrichment (SimpleExample.answer w);
                 EvEnrich SimpleExample.search_filters (Z.min c 1000)]).
Proof.
  unfold SimpleExample.script.
  generalize SimpleExample.search_filters. intros sf.
  set (pre := if SimpleExample.has_anthropic_key w
              then [EvPreview sf; EvAdvise 1] else [EvPreview sf]).
  assert (Hpre : forall e, In e pre -> is_enrich e = false).
  { intros e. unfold pre.
    destruct (SimpleExample.has_anthropic_key w); simpl;
      intuition (subst; reflexivity). }
  assert (Hone : forall e, In e [EvPreview sf] -> is_enrich e = false).
  { intros e [<- | []]. reflexivity. }
  destruct (SimpleExample.preview w) as [[status c] | e]; simpl;
    [| left; exact Hone].
  destruct (status =? 200); simpl; [| left; exact Hone].
  destruct (says_yes (SimpleExample.answer w)) eqn:Hyes.
  - assert (Hgo : exists pre0 status0 c0,
               Ok (status, c) = Ok (status0, c0) /\
               true = true /\
               (forall e, In e pre0 -> is_enrich e = false) /\
               pre ++ [EvInput ProceedEnrichment (SimpleExample.answer w);
                       EvEnrich sf (Z.min c 1000)]
               = pre0 ++ [EvInput ProceedEnrichment (SimpleExample.answer w);
                          EvEnrich sf (Z.min c0 1000)]).
    { exists pre, status, c. auto. }
    unfold pre in Hgo.
    destruct (SimpleExample.has_anthropic_key w); simpl;
      [| destruct (c =? 0); simpl; [left; exact Hone |]].
    all: right.
    all: destruct (SimpleExample.enrich w) as [st | e];
      [destruct (st =? 200) |]; simpl; exact Hgo.
  - left.
    destruct (SimpleExample.has_anthropic_key w); simpl;
      [| destruct (c =? 0); simpl ].
    all: intros e' He'; simpl in He'; intuition (subst; reflexivity).
Qed.

(** C8. In [main] and in [simple_example.py] an enrichment request is the
    last event of the run and comes right after the enrichment prompt,
    answered "yes" or "y"; everything before that prompt is a preview, an
    advisor call or a prompt of the loop. The loop adds no enrichment
    request to the log, and a run whose enrichment prompt is declined
    holds none. *)
Theorem enrichment_needs_confirmation :
  (forall w goal max_iterations F pre f lim post,
     log (snd (main w goal max_iterations F)) = pre ++ EvEnrich f lim :: post ->
     post = [] /\
     exists pre' iteration,
       pre = pre' ++ [EvInput ProceedEnrichment
                        (input w ProceedEnrichment iteration)] /\
       says_yes (input w ProceedEnrichment iteration) = true /\
       forallb loop_event pre' = true) /\
  (forall w goal max_iterations iteration v e,
     In e (log (snd (loop w goal max_iterations iteration v))) ->
     In e (log v) \/ is_enrich e = false) /\
  (forall w goal max_iterations F,
     (forall iteration,
        says_yes (input w ProceedEnrichment iteration) = false) ->
     forall e, In e (log (snd (main w goal max_iterations F))) ->
               is_enrich e = false) /\
  (forall w pre f lim post,
     snd (SimpleExample.script w) = pre ++ EvEnrich f lim :: post ->
     post = [] /\
     exists pre',
       pre = pre' ++ [EvInput ProceedEnrichment (SimpleExample.answer w)] /\
       says_yes (SimpleExample.answer w) = true /\
       forall e, In e pre' -> is_enrich e = false) /\
  (forall w,
     says_yes (SimpleExample.answer w) = false ->
     forall e, In e (snd (SimpleExample.script w)) -> is_enrich e = false).
Proof.
  split; [| split; [| split; [| split]]].
  - intros w goal max_iterations F pre f lim post Heq.
    destruct (main_shape w goal max_iterations F)
      as (evs & tail & Hlog & Hloop & _ & _ & Htail).
    rewrite Hlog in Heq.
    assert (Hin : In (EvEnrich f lim) (evs ++ tail)).
    { rewrite Heq. apply in_or_app. right. left. reflexivity. }
    destruct Htail as [| i Hno | i c Hyes Hlast].
    + apply in_app_or in Hin as [Hin | []].
      apply (loop_events_not_enrich _ _ Hloop) in Hin. discriminate.
    + apply in_app_or in Hin as [Hin | [Hin | []]]; [| discriminate].
      apply (loop_events_not_enrich _ _ Hloop) in Hin. discriminate.
    + apply enrich_position in Heq as (-> & -> & _ & _);
        [| intros e; apply (loop_events_not_enrich _ _ Hloop) | reflexivity].
      split; [reflexivity |]. exists evs, i. auto.
  - intros w goal max_iterations iteration v e Hin.
    destruct (loop_effect w goal max_iterations
                (S max_iterations - iteration) iteration v (le_n _))
      as (evs & Hlog & Hloop & _).
    rewrite Hlog in Hin. apply in_app_or in Hin as [Hin | Hin]; [auto |].
    right. apply (loop_events_not_enrich _ _ Hloop). exact Hin.
  - intros w goal max_iterations F Hno e Hin.
    destruct (main_shape w goal max_iterations F)
      as (evs & tail & Hlog & Hloop & _ & _ & Htail).
    rewrite Hlog in Hin. apply in_app_or in Hin as [Hin | Hin].
    + apply (loop_events_not_enrich _ _ Hloop). exact Hin.
    + destruct Htail as [| i Hi | i c Hyes Hlast].
      * destruct Hin.
      * destruct Hin as [<- | []]. reflexivity.
      * rewrite Hno in Hyes. discriminate.
  - intros w pre f lim post Heq.
    destruct (simple_script_shape w)
      as [Hnone | (pre0 & status & c & _ & Hyes & Hpre0 & Hlog)].
    + assert (Hin : In (EvEnrich f lim) (snd (SimpleExample.script w))).
      { rewrite Heq. apply in_or_app. right. left. reflexivity. }
      apply Hnone in Hin. discriminate.
    + rewrite Hlog in Heq.
      apply enrich_position in Heq as (-> & -> & _ & _);
        [| exact Hpre0 | reflexivity].
      split; [reflexivity |]. exists pre0. auto.
  - intros w Hno e Hin.
    destruct (simple_script_shape w)
      as [Hnone | (pre0 & status & c & _ & Hyes & _)].
    + apply Hnone. exact Hin.
    + rewrite Hno in Hyes. discriminate.
Qed.

Lemma enrichment_needs_confirmation_witness :
  (exists pre' iteration,
     [EvPreview starting_filters; EvAdvise 1;
      EvInput ProceedEnrichment " Yes "]
     = pre' ++ [EvInput ProceedEnrichment
                  (input world_advisor_down ProceedEnrichment iteration)] /\
     says_yes (input world_advisor_down ProceedEnrichment iteration) = true) /\
  (forall e,
     In e (log (snd (main world_always_proceed goal_text MAX_ITERATIONS
                       starting_filters))) ->
     is_enrich e = false) /\
  (forall e,
     In e (snd (SimpleExample.script SimpleExample.sample_declines)) ->
     is_enrich e = false).
Proof.
  destruct enrichment_needs_confirmation
    as (Hmain & _ & Hdecline & _ & Hsimple).
  split; [| split].
  - destruct (Hmain world_advisor_down goal_text MAX_ITERATIONS
                starting_filters
                [EvPreview starting_filters; EvAdvise 1;
                 EvInput ProceedEnrichment " Yes "]
                starting_filters 1000 [])
      as (_ & pre' & iteration & Hpre & Hyes & _).
    + vm_compute. reflexivity.
    + exists pre', iteration. split; [exact Hpre | exact Hyes].
  - apply Hdecline. intros iteration. reflexivity.
  - apply Hsimple. reflexivity.
Defined.

(** ** The limit of the enrichment request *)

Lemma no_enrich_snoc (l : list event) (x : event) :
  (forall e, In e l -> is_enrich e = false) ->
  is_enrich x = false ->
  forall e, In e (l ++ [x]) -> is_enrich e = false.
Proof.
  intros Hl Hx e Hin. apply in_app_or in Hin as [Hin | [<- | []]]; auto.
Qed.

(** The refinement loop of [run_workflow_example] sends no enrichment
    request. *)
Lemma refine_no_enrich (w : Workflow.World) (iterations : list nat) :
  forall l,
    (forall e, In e l -> is_enrich e = false) ->
    forall e, In e (snd (Workflow.refine w iterations l)) ->
              is_enrich e = false.
Proof.
  induction iterations as [| iteration rest IH]; intros l Hl; simpl;
    [exact Hl |].
  pose proof (no_enrich_snoc l (EvAdvise iteration) Hl eq_refl) as Hadv.
  destruct (Workflow.analyze_search_results w iteration) as [[] | e];
    simpl; try exact Hadv.
  pose proof (no_enrich_snoc _
                (EvInput ApplySuggested (Workflow.input w ApplySuggested iteration))
                Hadv eq_refl) as Hask.
  destruct (says_y (Workflow.input w ApplySuggested iteration)); simpl.
  - apply IH. exact Hask.
  - exact Hask.
Qed.

Lemma workflow_enrich (w : Workflow.World) f lim :
  In (EvEnrich f lim) (snd (Workflow.run_workflow_example w)) ->
  exists c, Workflow.preview_leads w f = Ok c /\ lim = Z.min c 1000.
Proof.
  unfold Workflow.run_workflow_example. cbv zeta.
  generalize (if decide (size (Workflow.suggest_filters_from_description w)
                         = 0%nat)
              then Workflow.manual_filters
              else Workflow.suggest_filters_from_description w).
  intros sf. generalize (seq 1 3). intros iterations.
  destruct (Workflow.preview_leads w sf) as [c | e] eqn:Hprev.
  2: { intros [Hin | []]. discriminate. }
  pose proof (refine_no_enrich w iterations [EvPreview sf]) as Href.
  destruct (Workflow.refine w iterations [EvPreview sf]) as [[e |] l];
    cbn [snd] in *.
  { intros Hin. apply Href in Hin; [discriminate |].
    intros e' [<- | []]. reflexivity. }
  assert (Hl : forall e, In e l -> is_enrich e = false).
  { apply Href. intros e' [<- | []]. reflexivity. }
  pose proof (no_enrich_snoc l
                (EvInput ProceedEnriching (Workflow.input w ProceedEnriching 0))
                Hl eq_refl) as Hask.
  destruct (says_y (Workflow.input w ProceedEnriching 0)).
  - assert (Hgoal : In (EvEnrich f lim)
                      ((l ++ [EvInput ProceedEnriching
                                (Workflow.input w ProceedEnriching 0)])
                       ++ [EvEnrich sf (Z.min c 1000)]) ->
                    exists c0, Workflow.preview_leads w f = Ok c0 /\
                               lim = Z.min c0 1000).
    { intros Hin. apply in_app_or in Hin as [Hin | [Hin | []]].
      - apply Hask in Hin. discriminate.
      - injection Hin as <- <-. exists c. auto. }
    destruct (Workflow.enrich_leads w sf (Z.min c 1000)); exact Hgoal.
  - cbn [snd]. intros Hin. apply Hask in Hin. discriminate.
Qed.

(** C10. In [main], in [simple_example.py] and in [run_workflow_example],
    the limit of an enrichment request is the smaller of 1000 and the last
    previewed count: it exceeds neither. *)
Theorem enrichment_limit_is_capped_count :
  (forall w goal max_iterations F f lim,
     In (EvEnrich f lim) (log (snd (main w goal max_iterations F))) ->
     exists c,
       last (previous_counts (snd (main w goal max_iterations F))) = Some c /\
       lim = Z.min c 1000 /\ lim <= 1000 /\ lim <= c) /\
  (forall w f lim,
     In (EvEnrich f lim) (snd (SimpleExample.script w)) ->
     exists status c,
       SimpleExample.preview w = Ok (status, c) /\
       lim = Z.min c 1000 /\ lim <= 1000 /\ lim <= c) /\
  (forall w f lim,
     In (EvEnrich f lim) (snd (Workflow.run_workflow_example w)) ->
     exists c,
       Workflow.preview_leads w f = Ok c /\
       lim = Z.min c 1000 /\ lim <= 1000 /\ lim <= c).
Proof.
  split; [| split].
  - intros w goal max_iterations F f lim Hin.
    destruct (main_shape w goal max_iterations F)
      as (evs & tail & Hlog & Hloop & _ & _ & Htail).
    rewrite Hlog in Hin. apply in_app_or in Hin as [Hin | Hin].
    { apply (loop_events_not_enrich _ _ Hloop) in Hin. discriminate. }
    destruct Htail as [| i Hno | i c Hyes Hlast].
    + destruct Hin.
    + destruct Hin as [Hin | []]. discriminate.
    + destruct Hin as [Hin | [Hin | []]]; [discriminate |].
      injection Hin as _ <-. exists c. repeat split; [exact Hlast | lia | lia].
  - intros w f lim Hin.
    destruct (simple_script_shape w)
      as [Hnone | (pre0 & status & c & Hprev & _ & Hpre0 & Hlog)].
    { apply Hnone in Hin. discriminate. }
    rewrite Hlog in Hin. apply in_app_or in Hin as [Hin | Hin].
    { apply Hpre0 in Hin. discriminate. }
    destruct Hin as [Hin | [Hin | []]]; [discriminate |].
    injection Hin as _ <-. exists status, c.
    repeat split; [exact Hprev | lia | lia].
  - intros w f lim Hin.
    destruct (workflow_enrich w f lim Hin) as (c & Hprev & ->).
    exists c. repeat split; [exact Hprev | lia | lia].
Qed.

Lemma enrichment_limit_is_capped_count_witness :
  (exists c,
     last (previous_counts
             (snd (main world_advisor_down goal_text MAX_ITERATIONS
                     starting_filters))) = Some c /\
     1000 = Z.min c 1000) /\
  (exists status c,
     SimpleExample.preview SimpleExample.sample_accepts = Ok (status, c) /\
     350 = Z.min c 1000) /\
  (exists c,
     Workflow.preview_leads Workflow.sample_accepts Workflow.manual_filters
       = Ok c /\
     1000 = Z.min c 1000).
Proof.
  destruct enrichment_limit_is_capped_count as (Hmain & Hsimple & Hflow).
  split; [| split].
  - destruct (Hmain world_advisor_down goal_text MAX_ITERATIONS
                starting_filters starting_filters 1000)
      as (c & Hlast & Hlim & _).
    + vm_compute. do 3 right. left. reflexivity.
    + exists c. split; [exact Hlast | exact Hlim].
  - destruct (Hsimple SimpleExample.sample_accepts
                SimpleExample.search_filters 350)
      as (status & c & Hprev & Hlim & _).
    + vm_compute. do 2 right. left. reflexivity.
    + exists status, c. split; [exact Hprev | exact Hlim].
  - destruct (Hflow Workflow.sample_accepts Workflow.manual_filters 1000)
      as (c & Hprev & Hlim & _).
    + vm_compute. do 3 right. left. reflexivity.
    + exists c. split; [exact Hprev | exact Hlim].
Defined.

(** [quick_example] stands apart from the three workflows above: it asks
    nothing and always requests 500 leads, also when fewer were
    previewed. *)
Example quick_example_fixed_limit :
  Workflow.quick_example (fun _ => Ok 100)
  = [EvPreview Workflow.quick_filters; EvEnrich Workflow.quick_filters 500].
Proof. vm_compute. reflexivity. Qed.

(** * Further properties of the code *)

(** ** [apply_filter_change]: frame, failures, merging *)

Lemma eqb_false_ne (a b : string) : String.eqb a b = false -> a <> b.
Proof. intros H ->. rewrite String.eqb_refl in H. discriminate. Qed.

(** X1. Whatever the action, an edit that succeeds leaves every category
    other than its own as it was. *)
Theorem edit_frame (F F' : FilterSet) (change : Edit) (y : string) :
  apply_filter_change F change = Ok F' ->
  y <> filter change ->
  F' !! y = F !! y.
Proof.
  intros Happly Hne. unfold apply_filter_change in Happly.
  assert (Hins : forall (u : pyvalue) (G : FilterSet),
             <[filter change := u]> G !! y = G !! y).
  { intros u G. apply lookup_insert_ne. congruence. }
  assert (Hcreate : (if negb (py_in (filter change) F)
                     then <[filter change := PDict ∅]> F else F) !! y
                    = F !! y).
  { destruct (negb (py_in (filter change) F)); [apply Hins | reflexivity]. }
  destruct (String.eqb (action change) "set").
  { injection Happly as <-. apply Hins. }
  destruct (String.eqb (action change) "add").
  { set (G := if negb (py_in (filter change) F)
              then <[filter change := PDict ∅]> F else F) in *.
    destruct (value change) as [| b | n | s | lv | dv];
      try (injection Happly as <-; exact Hcreate).
    - set (G2 := if negb (py_in (filter change) G)
                 then <[filter change := PList []]> G else G) in *.
      assert (HG2 : G2 !! y = G !! y).
      { unfold G2. destruct (negb (py_in (filter change) G));
          [apply Hins | reflexivity]. }
      destruct (py_extend (G2 !! filter change) lv); [| discriminate].
      injection Happly as <-. rewrite Hins, HG2. exact Hcreate.
    - destruct (py_update (G !! filter change) dv); [| discriminate].
      injection Happly as <-. rewrite Hins. exact Hcreate. }
  destruct (String.eqb (action change) "remove").
  { destruct (py_in (filter change) F); injection Happly as <-;
      [apply lookup_delete_ne; congruence | reflexivity]. }
  injection Happly as <-. reflexivity.
Qed.

Lemma edit_frame_witness :
  exists F',
    apply_filter_change starting_filters
      (mkEdit "job_titles" "add" (PDict {[ "exclude" := PList [] ]})) = Ok F' /\
    F' !! "locations" = starting_filters !! "locations".
Proof.
  pose proof (add_dict_present starting_filters "job_titles"
                {[ "include" :=
                     PList [PStr "CEO"; PStr "Chief Executive Officer";
                            PStr "Founder"; PStr "Co-Founder"];
                   "exclude" := PList [PStr "Assistant"; PStr "Associate"] ]}
                {[ "exclude" := PList [] ]} eq_refl) as Happly.
  eexists. split; [exact Happly |].
  apply (edit_frame starting_filters _
           (mkEdit "job_titles" "add" (PDict {[ "exclude" := PList [] ]}))
           "locations" Happly).
  discriminate.
Defined.

(** An edit that carries its three keys and whose action is none of "set",
    "add", "remove" changes nothing. *)
Lemma unknown_action_is_noop (F : FilterSet) (change : Edit) :
  action change <> "set" ->
  action change <> "add" ->
  action change <> "remove" ->
  apply_filter_change F change = Ok F.
Proof.
  intros Hset Hadd Hrem. unfold apply_filter_change.
  apply String.eqb_neq in Hset, Hadd, Hrem.
  rewrite Hset, Hadd, Hrem. reflexivity.
Qed.

(** X3. The three keys of a change are read before its action is looked
    at: a change that lacks "filter", "action" or "value" raises
    [KeyError] whatever else it holds, also a [remove] or an unknown
    action, which never use the value. A change that has all three keys
    and an action that is none of "set", "add", "remove" returns the
    filters unchanged, without a report. *)
Theorem missing_key_or_unknown_action (F : FilterSet) (change : Change) :
  (change_filter change = None \/ change_action change = None \/
   change_value change = None ->
   apply_filter_change_dict F change = Raise KeyError) /\
  (forall filter_name action value,
     change_filter change = Some filter_name ->
     change_action change = Some action ->
     change_value change = Some value ->
     action <> "set" -> action <> "add" -> action <> "remove" ->
     apply_filter_change_dict F change = Ok F).
Proof.
  unfold apply_filter_change_dict. split.
  - destruct (change_filter change), (change_action change),
      (change_value change); intros [H | [H | H]];
      try discriminate; reflexivity.
  - intros filter_name action value -> -> -> Hset Hadd Hrem.
    apply unknown_action_is_noop; assumption.
Qed.

Lemma missing_key_or_unknown_action_witness :
  apply_filter_change_dict starting_filters
    (mkChange (Some "management_levels") (Some "remove") None)
  = Raise KeyError /\
  apply_filter_change_dict starting_filters
    (mkChange (Some "job_titles") (Some "exclude")
       (Some (PList [PStr "Intern"])))
  = Ok starting_filters.
Proof.
  split.
  - destruct (missing_key_or_unknown_action starting_filters
                (mkChange (Some "management_levels") (Some "remove") None))
      as (Hmissing & _).
    apply Hmissing. right. right. reflexivity.
  - destruct (missing_key_or_unknown_action starting_filters
                (mkChange (Some "job_titles") (Some "exclude")
                   (Some (PList [PStr "Intern"]))))
      as (_ & Hunknown).
    apply (Hunknown "job_titles" "exclude" (PList [PStr "Intern"]));
      try reflexivity; discriminate.
Defined.

(** X4. [add] of a dict to a category that holds a dict merges key by key:
    a key of the added dict reads the added value, any other key reads
    what the category held. *)
Theorem add_dict_merges (F : FilterSet) (x : string)
    (d dv : gmap string pyvalue) :
  F !! x = Some (PDict d) ->
  exists m,
    apply_filter_change F (mkEdit x "add" (PDict dv))
      = Ok (<[x := PDict m]> F) /\
    forall k, m !! k = match dv !! k with
                       | Some u => Some u
                       | None => d !! k
                       end.
Proof.
  intros Hx. exists (dv ∪ d). split; [apply add_dict_present; exact Hx |].
  intros k. rewrite lookup_union.
  destruct (dv !! k), (d !! k); reflexivity.
Qed.

Lemma add_dict_merges_witness :
  exists m,
    apply_filter_change
      {[ "company_size" := PDict {[ "min" := PInt 10; "max" := PInt 500 ]} ]}
      (mkEdit "company_size" "add" (PDict {[ "max" := PInt 150 ]}))
    = Ok {[ "company_size" := PDict m ]} /\
    m !! "min" = Some (PInt 10) /\ m !! "max" = Some (PInt 150).
Proof.
  destruct (add_dict_merges
              {[ "company_size" :=
                   PDict {[ "min" := PInt 10; "max" := PInt 500 ]} ]}
              "company_size"
              {[ "min" := PInt 10; "max" := PInt 500 ]}
              {[ "max" := PInt 150 ]} (lookup_singleton_eq _ _))
    as (m & Happly & Hm).
  exists m. split; [| split].
  - rewrite Happly, insert_singleton_eq. reflexivity.
  - rewrite Hm. reflexivity.
  - rewrite Hm. reflexivity.
Defined.

(** X5. [add] fails with [AttributeError] when the category exists and is
    not of the kind of the value: a dict added to anything but a dict, a
    list added to anything but a list. *)
Theorem add_kind_mismatch_raises (F : FilterSet) (x : string) (u v : pyvalue) :
  F !! x = Some u ->
  ((exists dv, v = PDict dv) /\ (forall d, u <> PDict d)) \/
  ((exists lv, v = PList lv) /\ (forall l, u <> PList l)) ->
  apply_filter_change F (mkEdit x "add" v) = Raise AttributeError.
Proof.
  intros Hx Hkind. unfold apply_filter_change. cbn [filter action value].
  repeat (rewrite (py_in_true _ _ _ Hx); cbn [negb]).
  destruct Hkind as [[(dv & ->) Hu] | [(lv & ->) Hu]].
  - rewrite Hx. destruct u; try reflexivity. destruct (Hu d eq_refl).
  - repeat (rewrite (py_in_true _ _ _ Hx); cbn [negb]).
    rewrite Hx. destruct u; try reflexivity. destruct (Hu l eq_refl).
Qed.

Lemma add_kind_mismatch_raises_witness :
  apply_filter_change starting_filters
    (mkEdit "management_levels" "add" (PDict {[ "include" := PList [] ]}))
  = Raise AttributeError /\
  apply_filter_change starting_filters
    (mkEdit "job_titles" "add" (PList [PStr "CTO"]))
  = Raise AttributeError.
Proof.
  split.
  - apply (add_kind_mismatch_raises starting_filters "management_levels"
             (PList [PStr "c_level"])); [reflexivity |].
    left. split; [eexists; reflexivity | discriminate].
  - apply (add_kind_mismatch_raises starting_filters "job_titles"
             (PDict {[ "include" :=
                         PList [PStr "CEO"; PStr "Chief Executive Officer";
                                PStr "Founder"; PStr "Co-Founder"];
                       "exclude" :=
                         PList [PStr "Assistant"; PStr "Associate"] ]}));
      [reflexivity |].
    right. split; [eexists; reflexivity | discriminate].
Defined.

(** X6. [add] of a value that is neither a dict nor a list merges nothing:
    a present category is left as it is, and an absent one is created
    holding an empty dict. *)
Theorem add_scalar_effect (F : FilterSet) (x : string) (v : pyvalue) :
  (forall d, v <> PDict d) ->
  (forall l, v <> PList l) ->
  apply_filter_change F (mkEdit x "add" v)
  = Ok (match F !! x with
        | Some _ => F
        | None => <[x := PDict ∅]> F
        end).
Proof.
  intros Hd Hl. unfold apply_filter_change, py_in. cbn [filter action value].
  destruct (F !! x); destruct v; try reflexivity;
    solve [destruct (Hd d eq_refl) | destruct (Hl l eq_refl)].
Qed.

Lemma add_scalar_effect_witness :
  apply_filter_change starting_filters
    (mkEdit "keywords" "add" (PStr "hiring"))
  = Ok (<["keywords" := PDict ∅]> starting_filters).
Proof.
  apply (add_scalar_effect starting_filters "keywords" (PStr "hiring"));
    discriminate.
Defined.

(** ** Batches of edits *)

Lemma apply_changes_cons (F : FilterSet) (change : Edit) (rest : list Edit) :
  apply_changes F (change :: rest)
  = match apply_filter_change F change with
    | Ok F' => apply_changes F' rest
    | Raise e => (F, Some e)
    end.
Proof. reflexivity. Qed.

(** X7. Edits compose in order: of two [set] on one category the second
    wins, and a [set] followed by a [remove] of the same category leaves it
    absent, as if only the [remove] had been applied. *)
Theorem set_then_set_or_remove (F : FilterSet) (x : string)
    (v1 v2 : pyvalue) :
  apply_changes F [mkEdit x "set" v1; mkEdit x "set" v2]
    = (<[x := v2]> F, None) /\
  apply_changes F [mkEdit x "set" v1; mkEdit x "remove" v2]
    = (delete x F, None).
Proof.
  assert (Hset : forall (G : FilterSet) v,
             apply_filter_change G (mkEdit x "set" v) = Ok (<[x := v]> G))
    by reflexivity.
  split; rewrite apply_changes_cons, Hset, apply_changes_cons.
  - rewrite Hset, insert_insert_eq. reflexivity.
  - rewrite remove_result, delete_insert_eq. reflexivity.
Qed.

Lemma apply_changes_app (F : FilterSet) (l1 l2 : list Edit) :
  apply_changes F (l1 ++ l2)
  = match apply_changes F l1 with
    | (F1, None) => apply_changes F1 l2
    | failed => failed
    end.
Proof.
  revert F. induction l1 as [| ch l1 IH]; intros F; [reflexivity |].
  rewrite <- app_comm_cons, !apply_changes_cons.
  destruct (apply_filter_change F ch) as [F' | e]; [apply IH | reflexivity].
Qed.

(** X8. A batch stops at its first failing edit: the edits before it stay
    applied, the failing edit and those after it are not. *)
Theorem batch_stops_at_first_failure (F F1 : FilterSet)
    (done rest : list Edit) (change : Edit) (e : exn) :
  apply_changes F done = (F1, None) ->
  apply_filter_change F1 change = Raise e ->
  apply_changes F (done ++ change :: rest) = (F1, Some e).
Proof.
  intros Hdone Hfail.
  rewrite apply_changes_app, Hdone, apply_changes_cons, Hfail. reflexivity.
Qed.

Lemma batch_stops_at_first_failure_witness :
  apply_changes starting_filters
    ([mkEdit "company_size" "set"
        (PDict {[ "min" := PInt 20; "max" := PInt 150 ]})]
     ++ mkEdit "industries" "add" (PList [PStr "Software"])
     :: [mkEdit "management_levels" "remove" PNone])
  = (<["company_size" := PDict {[ "min" := PInt 20; "max" := PInt 150 ]}]>
       starting_filters,
     Some AttributeError).
Proof.
  apply batch_stops_at_first_failure.
  - reflexivity.
  - apply add_list_absent. vm_compute. reflexivity.
Defined.

(** X9. A batch, whether it completes or stops on a failure, leaves every
    category that none of its edits names as it was. *)
Theorem batch_frame (changes : list Edit) (F : FilterSet) (y : string) :
  (forall change, In change changes -> filter change <> y) ->
  fst (apply_changes F changes) !! y = F !! y.
Proof.
  revert F. induction changes as [| ch changes IH]; intros F Hy;
    [reflexivity |].
  rewrite apply_changes_cons.
  destruct (apply_filter_change F ch) as [F' | e] eqn:Happly;
    [| reflexivity].
  rewrite IH.
  - apply (edit_frame F F' ch y Happly).
    intros ->. apply (Hy ch); [left |]; reflexivity.
  - intros ch' Hin. apply Hy. right. exact Hin.
Qed.

Lemma batch_frame_witness :
  fst (apply_changes starting_filters
         [mkEdit "company_size" "set" (PDict {[ "min" := PInt 20 ]});
          mkEdit "industries" "add" (PList [PStr "Software"])])
    !! "locations"
  = starting_filters !! "locations".
Proof.
  apply batch_frame.
  intros change [<- | [<- | []]]; discriminate.
Defined.

(** ** The refinement loop: what changes the filters *)

Lemma try_block_keeps_filters w goal iteration c v :
  says_y (input w ApplyChanges iteration) = false ->
  current_filters (snd (try_block w goal iteration c v)) = current_filters v.
Proof.
  intros Hno. unfold try_block.
  destruct (get_ai_refinement_suggestions _ _ _ _ _ _) as [s | e]; simpl;
    [| reflexivity].
  destruct (String.eqb (recommendation s) "proceed"); simpl; [reflexivity |].
  destruct (String.eqb (recommendation s) "pivot"); simpl;
    [destruct (says_y (input w ContinueAnyway iteration)); simpl |].
  all: destruct (suggested_changes s) as [| ch rest]; simpl;
    try reflexivity.
  all: rewrite Hno;
    destruct (says_y (input w EnterOwn iteration)); reflexivity.
Qed.

Lemma loop_body_keeps_filters w goal iteration v :
  says_y (input w ApplyChanges iteration) = false ->
  current_filters (snd (loop_body w goal iteration v)) = current_filters v.
Proof.
  intros Hno. unfold loop_body. simpl.
  destruct (preview_search w iteration (current_filters v)) as [c | e];
    [| reflexivity].
  pose proof (try_block_keeps_filters w goal iteration c
                (record_count c (emit (EvPreview (current_filters v)) v)) Hno)
    as Hkeep.
  destruct (try_block w goal iteration c _) as [[ | r | | e] v'];
    simpl in *; exact Hkeep.
Qed.

(** X10. The filters change only through changes the user accepts: in a
    run where no "Apply these changes?" prompt is answered "y", the loop
    returns the filters it started from, and so does [main]. *)
Theorem filters_change_only_on_acceptance w goal max_iterations :
  (forall j, says_y (input w ApplyChanges j) = false) ->
  (forall iteration v,
     current_filters (snd (loop w goal max_iterations iteration v))
     = current_filters v) /\
  (forall F, current_filters (snd (main w goal max_iterations F)) = F).
Proof.
  intros Hno.
  assert (Hloop : forall n iteration v,
             (S max_iterations - iteration <= n)%nat ->
             current_filters (snd (loop w goal max_iterations iteration v))
             = current_filters v).
  { induction n as [| n IH]; intros iteration v Hn; rewrite loop_step;
      destruct (decide (iteration <= max_iterations)%nat); try lia;
      try reflexivity.
    pose proof (loop_body_keeps_filters w goal iteration v (Hno iteration))
      as Hbody.
    destruct (loop_body w goal iteration v) as [[ | r | | e] v'];
      simpl in *; try exact Hbody.
    rewrite IH by lia. exact Hbody. }
  split.
  - intros iteration v. apply (Hloop _ _ _ (le_n _)).
  - intros F. unfold main.
    pose proof (Hloop _ 1%nat (initial_vars F) (le_n _)) as Hrun.
    destruct (loop w goal max_iterations 1 (initial_vars F))
      as [[ex iteration] v]. simpl in Hrun.
    assert (Hfinal : current_filters (snd (final_decision w iteration v)) = F).
    { unfold final_decision. destruct (count v); [| exact Hrun].
      simpl. destruct (says_yes _); [| exact Hrun].
      simpl. destruct (post_enrich _ _ _) as [st | e];
        [destruct (st =? 200) |]; exact Hrun. }
    destruct ex; simpl; auto.
Qed.

Lemma filters_change_only_on_acceptance_witness :
  current_filters
    (snd (main world_empty_refine goal_text MAX_ITERATIONS starting_filters))
  = starting_filters.
Proof.
  apply (filters_change_only_on_acceptance world_empty_refine goal_text
           MAX_ITERATIONS).
  intros j. reflexivity.
Defined.

(** X11. The history of counts is append-only: the loop keeps the counts
    recorded before it as a prefix, adds at most one count per remaining
    iteration, and leaves [count] equal to the last count it added, or as
    it was when it added none. *)
Theorem history_is_append_only w goal max_iterations iteration v :
  exists cs,
    previous_counts (snd (loop w goal max_iterations iteration v))
      = previous_counts v ++ cs /\
    (List.length cs <= S max_iterations - iteration)%nat /\
    count (snd (loop w goal max_iterations iteration v))
      = match last cs with
        | Some c => Some c
        | None => count v
        end.
Proof.
  remember (S max_iterations - iteration)%nat as n eqn:Hn.
  assert (Hle : (S max_iterations - iteration <= n)%nat) by lia.
  rewrite Hn. clear Hn. revert iteration v Hle.
  induction n as [| n IH]; intros iteration v Hle; rewrite loop_step;
    destruct (decide (iteration <= max_iterations)%nat) as [Hin | Hout];
    try lia.
  1, 3: exists []; simpl; rewrite app_nil_r; repeat split; lia.
  destruct (loop_body_effect w goal iteration v)
    as (evs & _ & _ & [(e & _ & Hb) | (c & _ & Hpc & Hc & Hflow)]).
  - rewrite Hb. exists []. simpl. rewrite app_nil_r. repeat split. lia.
  - destruct (loop_body w goal iteration v) as [[ | r | | e] v'];
      simpl in *.
    2-4: exists [c]; repeat split; [exact Hpc | simpl; lia | exact Hc].
    destruct (IH (S iteration) v' ltac:(lia)) as (cs & Hcs & Hlen & Hlast).
    exists (c :: cs). rewrite Hcs, Hpc, <- app_assoc. simpl.
    repeat split; [lia |]. rewrite Hlast, Hc.
    destruct cs as [| c' cs']; [reflexivity |].
    change (c :: c' :: cs') with ([c] ++ c' :: cs').
    rewrite last_app. destruct (last (c' :: cs')) eqn:Hl; [reflexivity |].
    apply last_None in Hl. discriminate.
Qed.

(** ** The refinement loop: single answers *)

(** X12. A declined pivot ends [main] on the spot: when the advisor answers
    "pivot" and "Continue anyway?" is not answered "y", the loop returns,
    and in whichever iteration of a run this happens [main] ends as
    cancelled right after that prompt, with the filters of that iteration
    and a log that holds only previews, advisor calls and prompts of the
    loop: no enrichment prompt and no enrichment request. *)
Theorem declined_pivot_cancels w goal max_iterations iteration v c s :
  (iteration <= max_iterations)%nat ->
  preview_search w iteration (current_filters v) = Ok c ->
  get_ai_refinement_suggestions w (current_filters v) c goal iteration
    (previous_counts v ++ [c]) = Ok s ->
  recommendation s = "pivot" ->
  says_y (input w ContinueAnyway iteration) = false ->
  loop w goal max_iterations iteration v
    = (Returned, iteration,
       emit (EvInput ContinueAnyway (input w ContinueAnyway iteration))
         (after_advice iteration c v)) /\
  (forall F,
     reaches w goal max_iterations 1 (initial_vars F) iteration v ->
     main w goal max_iterations F
       = (Cancelled,
          emit (EvInput ContinueAnyway (input w ContinueAnyway iteration))
            (after_advice iteration c v)) /\
     current_filters (snd (main w goal max_iterations F))
       = current_filters v /\
     forallb loop_event (log (snd (main w goal max_iterations F))) = true).
Proof.
  intros Hle Hprev Hadv Hrec Hno.
  assert (Hloop : loop w goal max_iterations iteration v
                  = (Returned, iteration,
                     emit (EvInput ContinueAnyway
                             (input w ContinueAnyway iteration))
                       (after_advice iteration c v))).
  { rewrite loop_step. destruct (decide _) as [_ | Hgt]; [| lia].
    unfold loop_body, try_block. simpl. rewrite Hprev. simpl.
    rewrite Hadv, Hrec. simpl. rewrite Hno. reflexivity. }
  split; [exact Hloop |].
  intros F Hreach.
  assert (Hmain : main w goal max_iterations F
                  = (Cancelled,
                     emit (EvInput ContinueAnyway
                             (input w ContinueAnyway iteration))
                       (after_advice iteration c v))).
  { unfold main. rewrite (reaches_loop _ _ _ _ _ _ _ Hreach), Hloop.
    reflexivity. }
  split; [exact Hmain |]. rewrite Hmain. split; [reflexivity |].
  cbn [snd emit after_advice record_count log].
  rewrite !forallb_app, (reaches_log _ _ _ _ _ _ _ Hreach eq_refl).
  reflexivity.
Qed.

Lemma declined_pivot_cancels_witness :
  fst (main world_pivot_later goal_text MAX_ITERATIONS starting_filters)
  = Cancelled /\
  log (snd (main world_pivot_later goal_text MAX_ITERATIONS starting_filters))
  = [EvPreview starting_filters; EvAdvise 1;
     EvPreview starting_filters; EvAdvise 2; EvInput ContinueAnyway "n"].
Proof.
  destruct (declined_pivot_cancels world_pivot_later goal_text MAX_ITERATIONS
              2 (after_advice 1 9000 (initial_vars starting_filters))
              9000 (mkSuggestions "pivot" []))
    as (_ & Hmain).
  - unfold MAX_ITERATIONS. lia.
  - reflexivity.
  - reflexivity.
  - reflexivity.
  - reflexivity.
  - destruct (Hmain starting_filters) as (Hrun & _).
    + apply (reaches_next _ _ _ 1%nat (initial_vars starting_filters)
               (after_advice 1 9000 (initial_vars starting_filters))).
      * unfold MAX_ITERATIONS. lia.
      * reflexivity.
      * apply reaches_here.
    + rewrite Hrun. split; reflexivity.
Defined.





(** ** The refinement loop: whole runs *)

Lemma out_of_band_falls_through (c : Z) :
  c > 2000 \/ c < 500 -> except_block c = Fallthrough.
Proof.
  intros Hc. unfold except_block, manual_fallback.
  destruct (Z.gtb_spec c 2000); [reflexivity |].
  destruct (Z.ltb_spec c 500); [reflexivity | lia].
Qed.

Lemma evaluations_after_advice iteration c v :
  evaluations (log (after_advice iteration c v))
  = S (evaluations (log v)).
Proof.
  unfold after_advice. simpl. rewrite !evaluations_app.
  unfold evaluations. simpl. lia.
Qed.

(** X15. With the advisor down and every previewed count outside
    500..2000, no pass ever leaves the loop: it runs all [max_iterations]
    iterations, previews once in each, never touches the filters, and is
    left by its condition with [iteration = max_iterations + 1]. *)
Theorem fallback_runs_to_exhaustion w goal max_iterations F :
  (forall j f, exists c,
      preview_search w j f = Ok c /\ (c > 2000 \/ c < 500)) ->
  (forall f c g j h, exists e,
      get_ai_refinement_suggestions w f c g j h = Raise e) ->
  exists v,
    loop w goal max_iterations 1 (initial_vars F)
      = (CondFalse, S max_iterations, v) /\
    current_filters v = F /\
    List.length (previous_counts v) = max_iterations /\
    evaluations (log v) = max_iterations /\
    terminal_reason_of CondFalse = Some exhausted.
Proof.
  intros Hprev Hadv.
  assert (Hgen : forall n iteration v,
             (S max_iterations - iteration = n)%nat ->
             (iteration <= S max_iterations)%nat ->
             exists v',
               loop w goal max_iterations iteration v
                 = (CondFalse, S max_iterations, v') /\
               current_filters v' = current_filters v /\
               List.length (previous_counts v')
                 = (List.length (previous_counts v) + n)%nat /\
               evaluations (log v') = (evaluations (log v) + n)%nat).
  { induction n as [| n IH]; intros iteration v Hn Hle; rewrite loop_step;
      destruct (decide (iteration <= max_iterations)%nat) as [Hin | Hout];
      try lia.
    - assert (iteration = S max_iterations) as -> by lia.
      exists v. repeat split; lia.
    - destruct (Hprev iteration (current_filters v)) as (c & Hc & Hband).
      destruct (Hadv (current_filters v) c goal iteration
                  (previous_counts v ++ [c])) as (e & He).
      rewrite (loop_body_advisor_raises w goal iteration v c e Hc He),
        (out_of_band_falls_through c Hband).
      destruct (IH (S iteration) (after_advice iteration c v)
                  ltac:(lia) ltac:(lia))
        as (v' & Hloop & Hf & Hlen & Hev).
      exists v'. split; [exact Hloop |].
      rewrite Hf, Hlen, Hev, evaluations_after_advice. simpl.
      rewrite List.length_app. simpl. repeat split; lia. }
  destruct (Hgen max_iterations 1%nat (initial_vars F) ltac:(lia) ltac:(lia))
    as (v' & Hloop & Hf & Hlen & Hev).
  exists v'. repeat split; assumption.
Qed.

Lemma fallback_runs_to_exhaustion_witness :
  exists v,
    loop (world_advisor_down_at 50) goal_text MAX_ITERATIONS 1
      (initial_vars starting_filters)
    = (CondFalse, S MAX_ITERATIONS, v) /\
    List.length (previous_counts v) = MAX_ITERATIONS.
Proof.
  destruct (fallback_runs_to_exhaustion (world_advisor_down_at 50) goal_text
              MAX_ITERATIONS starting_filters)
    as (v & Hloop & _ & Hlen & _).
  - intros j f. exists 50. split; [reflexivity | lia].
  - intros f c g j h. exists AdvisorError. reflexivity.
  - exists v. split; [exact Hloop | exact Hlen].
Defined.




(** ** The text handed to the JSON parser *)

Lemma length_append (a b : string) :
  String.length (a ++ b)%string = (String.length a + String.length b)%nat.
Proof.
  induction a as [| c a IH]; [reflexivity |].
  change (String c a ++ b)%string with (String c (a ++ b)%string).
  simpl. rewrite IH. reflexivity.
Qed.

Lemma append_cons (x : ascii) (a b : string) :
  (String x a ++ b)%string = String x (a ++ b)%string.
Proof. reflexivity. Qed.

Lemma append_assoc (a b c : string) :
  ((a ++ b) ++ c)%string = (a ++ (b ++ c))%string.
Proof.
  induction a as [| x a IH]; [reflexivity |].
  rewrite !append_cons, IH. reflexivity.
Qed.

Lemma substring_whole_prefix (s r : string) :
  String.substring 0 (String.length s) (s ++ r)%string = s.
Proof.
  induction s as [| c s IH].
  - destruct r; reflexivity.
  - rewrite append_cons. simpl. rewrite IH. reflexivity.
Qed.

Lemma substring_skip (a b : string) (m : nat) :
  String.substring (String.length a) m (a ++ b)%string
  = String.substring 0 m b.
Proof.
  induction a as [| c a IH]; [reflexivity |].
  rewrite append_cons. simpl. exact IH.
Qed.

Lemma prefix_of_append (s r : string) : String.prefix s (s ++ r)%string = true.
Proof. apply String.prefix_correct. apply substring_whole_prefix. Qed.

Lemma prefix_needs_first (c d : ascii) (sub rest : string) :
  c <> d -> String.prefix (String c sub) (String d rest) = false.
Proof.
  intros Hne. destruct (String.prefix (String c sub) (String d rest)) eqn:Hp;
    [| reflexivity].
  apply String.prefix_correct in Hp. simpl in Hp. congruence.
Qed.

Lemma index_at_head (c : ascii) (sub r : string) :
  String.index 0 (String c sub) (String c sub ++ r)%string = Some 0%nat.
Proof.
  change (String c sub ++ r)%string with (String c (sub ++ r)%string).
  cbn [String.index].
  change (String c (sub ++ r)%string) with (String c sub ++ r)%string.
  rewrite prefix_of_append. reflexivity.
Qed.

Lemma no_backtick_cons (c : ascii) (s : string) :
  no_backtick (String c s) = true -> "`"%char <> c /\ no_backtick s = true.
Proof.
  simpl. intros H. apply andb_prop in H as [Hc Hs]. split; [| exact Hs].
  intros <-. rewrite Ascii.eqb_refl in Hc. discriminate.
Qed.

(** A search for something that starts with a backtick passes over a text
    without backticks. *)
Lemma index_through_clean (pre rest sub : string) :
  no_backtick pre = true ->
  String.index 0 (String "`" sub) (pre ++ rest)%string
  = option_map (Nat.add (String.length pre))
      (String.index 0 (String "`" sub) rest).
Proof.
  intros Hpre. induction pre as [| c pre IH].
  - change (EmptyString ++ rest)%string with rest.
    destruct (String.index 0 _ rest); reflexivity.
  - apply no_backtick_cons in Hpre as [Hc Hpre].
    change (String c pre ++ rest)%string with (String c (pre ++ rest)%string).
    cbn [String.index]. rewrite (prefix_needs_first _ _ _ _ Hc), (IH Hpre).
    destruct (String.index 0 _ rest); reflexivity.
Qed.

Lemma index_in_clean (s sub : string) :
  no_backtick s = true -> String.index 0 (String "`" sub) s = None.
Proof.
  intros Hs. induction s as [| c s IH]; [reflexivity |].
  apply no_backtick_cons in Hs as [Hc Hs].
  cbn [String.index]. rewrite (prefix_needs_first _ _ _ _ Hc), (IH Hs).
  reflexivity.
Qed.

Lemma index_skip (a b sub : string) (n : nat) :
  String.index (String.length a + n) sub (a ++ b)%string
  = option_map (Nat.add (String.length a)) (String.index n sub b).
Proof.
  induction a as [| c a IH].
  - change (EmptyString ++ b)%string with b. simpl.
    destruct (String.index n sub b); reflexivity.
  - change (String c a ++ b)%string with (String c (a ++ b)%string).
    cbn [String.length Nat.add String.index]. rewrite IH.
    destruct (String.index n sub b); reflexivity.
Qed.

(** Where an opening fence [tag] is found after a clean text, and what
    lies between it and the next closing fence. *)
Lemma fenced_slice (tag pre body post : string) :
  no_backtick pre = true ->
  no_backtick body = true ->
  let text := (pre ++ String "`" tag ++ body ++ "```" ++ post)%string in
  let start := (String.length pre + String.length (String "`" tag))%nat in
  String.index 0 (String "`" tag) text = Some (String.length pre) /\
  py_slice text start (py_find text "```" start) = body.
Proof.
  intros Hpre Hbody text start. split.
  - unfold text. rewrite (index_through_clean _ _ _ Hpre), index_at_head.
    simpl. f_equal. lia.
  - assert (Htext : text
                    = ((pre ++ String "`" tag)
                       ++ (body ++ "```" ++ post))%string).
    { unfold text. rewrite append_assoc. reflexivity. }
    assert (Hstart : start = (String.length (pre ++ String "`" tag) + 0)%nat).
    { unfold start. rewrite length_append. lia. }
    unfold py_find. rewrite Htext, Hstart, index_skip.
    rewrite (index_through_clean _ _ _ Hbody), index_at_head. simpl option_map.
    unfold py_slice. rewrite !length_append.
    replace (_ <? 0) with false by (symmetry; apply Z.ltb_ge; lia).
    rewrite Z.min_l by (simpl String.length; lia).
    rewrite Nat.add_0_r.
    replace (Z.to_nat _ - _)%nat with (String.length body) by lia.
    rewrite <- length_append, substring_skip. apply substring_whole_prefix.
Qed.

Lemma no_backtick_app (a b : string) :
  no_backtick a = true -> no_backtick b = true ->
  no_backtick (a ++ b)%string = true.
Proof.
  intros Ha Hb. induction a as [| c a IH]; [exact Hb |].
  rewrite append_cons. simpl in *. apply andb_prop in Ha as [Hc Ha].
  rewrite Hc, (IH Ha). reflexivity.
Qed.

(** X17. A reply that wraps its JSON in a "json" fence is cut down to the
    text between the fence and the next closing fence, stripped; text
    before the fence and after the closing fence is dropped. A reply
    without any backtick goes to the parser as it is. *)
Theorem extract_json_fenced (pre body post : string) :
  no_backtick pre = true ->
  no_backtick body = true ->
  extract_json (pre ++ "```json" ++ body ++ "```" ++ post)%string
    = strip body /\
  extract_json body = body.
Proof.
  intros Hpre Hbody. split.
  - destruct (fenced_slice "``json" pre body post Hpre Hbody)
      as (Hopen & Hslice).
    assert (Hfind : py_find (pre ++ "```json" ++ body ++ "```" ++ post)
                      "```json" 0 = Z.of_nat (String.length pre))
      by (unfold py_find; rewrite Hopen; reflexivity).
    unfold extract_json, py_contains. rewrite Hopen, Hfind.
    replace (Z.to_nat (Z.of_nat (String.length pre) + 7))
      with (String.length pre + String.length "```json")%nat
      by (simpl String.length; lia).
    rewrite Hslice. reflexivity.
  - unfold extract_json, py_contains.
    rewrite (index_in_clean body "``json" Hbody). reflexivity.
Qed.

Lemma extract_json_fenced_witness :
  extract_json ("Here is my analysis: " ++ "```json" ++ "
{}
" ++ "```" ++ " Good luck!")%string
  = "{}".
Proof.
  destruct (extract_json_fenced "Here is my analysis: " "
{}
" " Good luck!" eq_refl eq_refl) as (Hcut & _).
  rewrite Hcut. reflexivity.
Defined.

(** X18. When the closing fence is missing, the search for it returns -1
    and the slice [json_start:-1] silently drops the last character of the
    reply. *)
Theorem extract_json_unterminated (pre body : string) (c : ascii) :
  no_backtick pre = true ->
  no_backtick body = true ->
  c <> "`"%char ->
  extract_json (pre ++ "```json" ++ body ++ String c EmptyString)%string
    = strip body.
Proof.
  intros Hpre Hbody Hc.
  set (text := (pre ++ "```json" ++ body ++ String c EmptyString)%string).
  assert (Hlast : no_backtick (body ++ String c EmptyString)%string = true).
  { apply no_backtick_app; [exact Hbody |]. simpl.
    apply Ascii.eqb_neq in Hc. rewrite Hc. reflexivity. }
  assert (Hopen : String.index 0 "```json" text = Some (String.length pre)).
  { unfold text. rewrite (index_through_clean _ _ _ Hpre), index_at_head.
    simpl. f_equal. lia. }
  assert (Htext : text
                  = ((pre ++ "```json")
                     ++ (body ++ String c EmptyString))%string).
  { unfold text. rewrite append_assoc. reflexivity. }
  assert (Hclose : py_find text "```" (String.length pre + 7) = -1).
  { unfold py_find.
    replace (String.length pre + 7)%nat
      with (String.length (pre ++ "```json") + 0)%nat
      by (rewrite length_append; simpl String.length; lia).
    rewrite Htext, index_skip, (index_in_clean _ _ Hlast). reflexivity. }
  assert (Hfind : py_find text "```json" 0 = Z.of_nat (String.length pre))
    by (unfold py_find; rewrite Hopen; reflexivity).
  unfold extract_json, py_contains. fold text. rewrite Hopen, Hfind.
  replace (Z.to_nat (Z.of_nat (String.length pre) + 7))
    with (String.length pre + 7)%nat by lia.
  rewrite Hclose. f_equal. unfold py_slice.
  assert (Hlen : String.length text
                 = (String.length pre + 7 + String.length body + 1)%nat).
  { rewrite Htext, !length_append. simpl String.length. lia. }
  rewrite Hlen. change (-1 <? 0) with true. cbv iota.
  replace (Z.to_nat _ - _)%nat with (String.length body) by lia.
  replace (String.length pre + 7)%nat
    with (String.length (pre ++ "```json")) by
    (rewrite length_append; simpl String.length; lia).
  rewrite Htext, substring_skip. apply substring_whole_prefix.
Qed.

Lemma extract_json_unterminated_witness :
  extract_json (EmptyString ++ "```json" ++ "[1, 2" ++ String "]" EmptyString)%string
  = "[1, 2".
Proof.
  rewrite (extract_json_unterminated EmptyString "[1, 2" "]" eq_refl eq_refl);
    [reflexivity | discriminate].
Defined.

(** X19. The extraction of [instantly_workflow.py] treats a "json" fence
    as [advanced_refinement.py] does and also accepts a fence without the
    tag, as long as no "json" fence occurs anywhere in the reply. *)
Theorem workflow_extract_json_fences (pre body post : string) :
  no_backtick pre = true ->
  no_backtick body = true ->
  Workflow.extract_json (pre ++ "```json" ++ body ++ "```" ++ post)%string
    = strip body /\
  (py_contains (pre ++ "```" ++ body ++ "```" ++ post)%string "```json"
     = false ->
   Workflow.extract_json (pre ++ "```" ++ body ++ "```" ++ post)%string
     = strip body).
Proof.
  intros Hpre Hbody. split.
  - destruct (extract_json_fenced pre body post Hpre Hbody) as (Hcut & _).
    destruct (fenced_slice "``json" pre body post Hpre Hbody) as (Hopen & _).
    rewrite <- Hcut. unfold Workflow.extract_json, extract_json, py_contains.
    rewrite Hopen. reflexivity.
  - intros Hno.
    destruct (fenced_slice "``" pre body post Hpre Hbody) as (Hopen & Hslice).
    assert (Hfind : py_find (pre ++ "```" ++ body ++ "```" ++ post)
                      "```" 0 = Z.of_nat (String.length pre))
      by (unfold py_find; rewrite Hopen; reflexivity).
    unfold Workflow.extract_json. rewrite Hno.
    unfold py_contains. rewrite Hopen, Hfind.
    replace (Z.to_nat (Z.of_nat (String.length pre) + 3))
      with (String.length pre + String.length "```")%nat
      by (simpl String.length; lia).
    rewrite Hslice. reflexivity.
Qed.

Lemma workflow_extract_json_fences_witness :
  Workflow.extract_json ("Filters: " ++ "```" ++ " [1] " ++ "```" ++ " done")%string
  = "[1]".
Proof.
  destruct (workflow_extract_json_fences "Filters: " " [1] " " done"
              eq_refl eq_refl) as (_ & Hplain).
  rewrite Hplain; [reflexivity | vm_compute; reflexivity].
Defined.

(** ** Answers at the prompts *)

Lemma ascii_lower_y (c : ascii) :
  ascii_lower c = "y"%char -> c = "y"%char \/ c = "Y"%char.
Proof.
  destruct c as [[] [] [] [] [] [] [] []]; vm_compute; intros H;
    try discriminate; auto.
Qed.

(** X20. The prompts inside the loop take exactly "y" and "Y" as consent:
    no surrounding blank and no "yes". Every such answer is also consent
    at the enrichment prompt, which in addition strips blanks and takes
    "yes". *)
Theorem says_y_exactly (answer : string) :
  (says_y answer = true <-> answer = "y" \/ answer = "Y") /\
  (says_y answer = true -> says_yes answer = true).
Proof.
  assert (Hiff : says_y answer = true <-> answer = "y" \/ answer = "Y").
  { split.
    - unfold says_y. intros H. apply String.eqb_eq in H.
      destruct answer as [| c [| c' rest]]; simpl in H; try discriminate.
      injection H as H. destruct (ascii_lower_y c H) as [-> | ->]; auto.
    - intros [-> | ->]; reflexivity. }
  split; [exact Hiff |].
  intros H. apply Hiff in H as [-> | ->]; reflexivity.
Qed.

Lemma says_y_exactly_witness : says_yes "Y" = true.
Proof.
  destruct (says_y_exactly "Y") as (_ & Hyes). apply Hyes. reflexivity.
Defined.

(** ** [instantly_workflow.py]: the request and the example runs *)

(** X21. The enrichment payload always carries the filters and the limit;
    the list name, the resource id and the enrichment options are carried
    only when they are given and not empty, and nothing else is sent. *)
Theorem enrich_payload_keys (search_filters : FilterSet) (limit : Z)
    (list_name resource_id : option string)
    (enrichment_options : option (gmap string pyvalue)) :
  let payload := Workflow.enrich_payload search_filters limit list_name
                   resource_id enrichment_options in
  payload !! "search_filters" = Some (PDict search_filters) /\
  payload !! "limit" = Some (PInt limit) /\
  payload !! "list_name"
    = (if Workflow.str_truthy list_name then PStr <$> list_name else None) /\
  payload !! "resource_id"
    = (if Workflow.str_truthy resource_id then PStr <$> resource_id
       else None) /\
  payload !! "enrichment_payload"
    = (if Workflow.dict_truthy enrichment_options
       then PDict <$> enrichment_options else None) /\
  forall k,
    k <> "search_filters" -> k <> "limit" -> k <> "list_name" ->
    k <> "resource_id" -> k <> "enrichment_payload" ->
    payload !! k = None.
Proof.
  unfold Workflow.enrich_payload.
  destruct list_name as [[| c1 n1] |], resource_id as [[| c2 n2] |],
    enrichment_options as [d |];
    cbn [Workflow.str_truthy Workflow.dict_truthy default negb fmap option_fmap
         option_map];
    try destruct (bool_decide (size d = 0%nat)); cbn [negb];
    repeat split; intros; simplify_map_eq; reflexivity.
Qed.

Lemma refine_shape (w : Workflow.World) (iterations : list nat) :
  forall l, exists evs,
    snd (Workflow.refine w iterations l) = l ++ evs /\
    (forall e, In e evs -> is_preview e = false /\ is_enrich e = false) /\
    (List.length (List.filter Workflow.is_advise evs)
       <= List.length iterations)%nat.
Proof.
  induction iterations as [| iteration rest IH]; intros l.
  { exists []. cbn [Workflow.refine snd]. rewrite app_nil_r.
    split; [reflexivity | split; [intros e [] | simpl; lia]]. }
  cbn [Workflow.refine].
  destruct (Workflow.analyze_search_results w iteration) as [[] | e].
  1, 3: exists [EvAdvise iteration]; cbn [snd];
        (split; [reflexivity
                | split; [intros e' [<- | []]; auto | simpl; lia]]).
  destruct (says_y (Workflow.input w ApplySuggested iteration)); cbn [negb].
  - destruct (IH ((l ++ [EvAdvise iteration])
                  ++ [EvInput ApplySuggested
                        (Workflow.input w ApplySuggested iteration)]))
      as (evs & Hlog & Hclean & Hcount).
    exists (EvAdvise iteration
            :: EvInput ApplySuggested
                 (Workflow.input w ApplySuggested iteration) :: evs).
    rewrite Hlog, <- !app_assoc. split; [reflexivity |]. split.
    + intros e [<- | [<- | Hin]]; auto.
    + simpl. lia.
  - exists [EvAdvise iteration;
            EvInput ApplySuggested
              (Workflow.input w ApplySuggested iteration)].
    cbn [snd]. rewrite <- app_assoc. split; [reflexivity |]. split.
    + intros e [<- | [<- | []]]; auto.
    + simpl. lia.
Qed.

Lemma clean_no_evaluation (evs : list event) :
  (forall e, In e evs -> is_preview e = false /\ is_enrich e = false) ->
  evaluations evs = 0%nat.
Proof.
  unfold evaluations. induction evs as [| x evs IH]; intros Hclean;
    [reflexivity |].
  simpl. destruct (Hclean x (or_introl eq_refl)) as (-> & _).
  apply IH. intros e He. apply Hclean. right. exact He.
Qed.

(** The log of [run_workflow_example]: the preview, the events of the
    refinement loop, and a tail. *)
Lemma workflow_log_shape (w : Workflow.World) :
  exists sf evs tail,
    snd (Workflow.run_workflow_example w) = [EvPreview sf] ++ evs ++ tail /\
    (forall e, In e evs -> is_preview e = false /\ is_enrich e = false) /\
    (List.length (List.filter Workflow.is_advise evs) <= 3)%nat /\
    (tail = [] \/
     tail = [EvInput ProceedEnriching (Workflow.input w ProceedEnriching 0)] \/
     (says_y (Workflow.input w ProceedEnriching 0) = true /\
      exists lim,
        tail = [EvInput ProceedEnriching
                  (Workflow.input w ProceedEnriching 0);
                EvEnrich sf lim])).
Proof.
  unfold Workflow.run_workflow_example. cbv zeta.
  generalize (if decide (size (Workflow.suggest_filters_from_description w)
                         = 0%nat)
              then Workflow.manual_filters
              else Workflow.suggest_filters_from_description w).
  intros sf. exists sf.
  destruct (Workflow.preview_leads w sf) as [c | e].
  2: { exists [], []. cbn [snd].
       split; [reflexivity | split; [intros e' [] | split; [simpl; lia |]]].
       left. reflexivity. }
  destruct (refine_shape w (seq 1 3) [EvPreview sf])
    as (evs & Hlog & Hclean & Hcount).
  simpl List.length in Hcount. exists evs.
  destruct (Workflow.refine w (seq 1 3) [EvPreview sf]) as [[e |] l];
    cbn [snd] in *; subst l.
  { exists []. rewrite app_nil_r. auto. }
  destruct (says_y (Workflow.input w ProceedEnriching 0)).
  - exists [EvInput ProceedEnriching (Workflow.input w ProceedEnriching 0);
            EvEnrich sf (Z.min c 1000)].
    assert (Hshape :
      (([EvPreview sf] ++ evs)
       ++ [EvInput ProceedEnriching (Workflow.input w ProceedEnriching 0)])
      ++ [EvEnrich sf (Z.min c 1000)]
      = [EvPreview sf] ++ evs
        ++ [EvInput ProceedEnriching (Workflow.input w ProceedEnriching 0);
            EvEnrich sf (Z.min c 1000)]).
    { rewrite <- !app_assoc. reflexivity. }
    destruct (Workflow.enrich_leads w sf (Z.min c 1000)); cbn [snd];
      (split; [exact Hshape | split; [exact Hclean | split; [exact Hcount |]]]);
      right; right; (split; [reflexivity | eexists; reflexivity]).
  - exists [EvInput ProceedEnriching (Workflow.input w ProceedEnriching 0)].
    cbn [snd]. rewrite <- !app_assoc.
    split; [reflexivity | split; [exact Hclean | split; [exact Hcount |]]].
    right. left. reflexivity.
Qed.

(** X22. Every run of [run_workflow_example] previews exactly once and
    asks for at most three analyses; an enrichment request is its last
    event, comes right after the final prompt answered "y" or "Y", and
    names the filters that were previewed. *)
Theorem workflow_run_shape (w : Workflow.World) :
  evaluations (snd (Workflow.run_workflow_example w)) = 1%nat /\
  (List.length
     (List.filter Workflow.is_advise (snd (Workflow.run_workflow_example w)))
   <= 3)%nat /\
  forall pre f lim post,
    snd (Workflow.run_workflow_example w) = pre ++ EvEnrich f lim :: post ->
    post = [] /\
    says_y (Workflow.input w ProceedEnriching 0) = true /\
    exists mid,
      pre = EvPreview f :: mid
            ++ [EvInput ProceedEnriching (Workflow.input w ProceedEnriching 0)].
Proof.
  destruct (workflow_log_shape w)
    as (sf & evs & tail & Hlog & Hclean & Hcount & Htail).
  rewrite Hlog.
  assert (Hev : evaluations tail = 0%nat /\
                List.length (List.filter Workflow.is_advise tail) = 0%nat).
  { destruct Htail as [-> | [-> | (_ & lim & ->)]]; split; reflexivity. }
  destruct Hev as (Hev & Hadv).
  split; [| split].
  - rewrite !evaluations_app, (clean_no_evaluation _ Hclean), Hev.
    reflexivity.
  - rewrite !List.filter_app, !List.length_app, Hadv. simpl. lia.
  - intros pre f lim post Heq.
    assert (Hbase : forall e, In e ([EvPreview sf] ++ evs) ->
                              is_enrich e = false).
    { intros e [<- | Hin]; [reflexivity | apply Hclean; exact Hin]. }
    rewrite app_assoc in Heq.
    destruct Htail as [-> | [-> | (Hyes & lim0 & ->)]].
    + exfalso. rewrite app_nil_r in Heq.
      assert (Hin : In (EvEnrich f lim) ([EvPreview sf] ++ evs))
        by (rewrite Heq; apply in_or_app; right; left; reflexivity).
      apply Hbase in Hin. discriminate.
    + exfalso.
      assert (Hin : In (EvEnrich f lim)
                      (([EvPreview sf] ++ evs)
                       ++ [EvInput ProceedEnriching
                             (Workflow.input w ProceedEnriching 0)]))
        by (rewrite Heq; apply in_or_app; right; left; reflexivity).
      apply (no_enrich_snoc _
               (EvInput ProceedEnriching (Workflow.input w ProceedEnriching 0))
               Hbase eq_refl) in Hin.
      discriminate.
    + apply enrich_position in Heq as (-> & -> & -> & _);
        [| exact Hbase | reflexivity].
      split; [reflexivity | split; [exact Hyes |]].
      exists evs. reflexivity.
Qed.

Lemma workflow_run_shape_witness :
  exists mid,
    [EvPreview Workflow.manual_filters; EvAdvise 1;
     EvInput ProceedEnriching "Y"]
    = EvPreview Workflow.manual_filters :: mid
      ++ [EvInput ProceedEnriching
            (Workflow.input Workflow.sample_accepts ProceedEnriching 0)].
Proof.
  destruct (workflow_run_shape Workflow.sample_accepts) as (_ & _ & Hlast).
  destruct (Hlast [EvPreview Workflow.manual_filters; EvAdvise 1;
                   EvInput ProceedEnriching "Y"]
              Workflow.manual_filters 1000 [])
    as (_ & _ & mid & Hmid).
  - vm_compute. reflexivity.
  - exists mid. exact Hmid.
Defined.

(** X23. [quick_example] sends an enrichment request exactly when the
    previewed count lies in 100..5000, without asking, and always for 500
    leads, whatever the count. *)
Theorem quick_example_band (preview_leads : FilterSet -> result Z) (c : Z) :
  preview_leads Workflow.quick_filters = Ok c ->
  forall f lim,
    In (EvEnrich f lim) (Workflow.quick_example preview_leads) <->
    (100 <= c <= 5000 /\ f = Workflow.quick_filters /\ lim = 500).
Proof.
  intros Hprev f lim. unfold Workflow.quick_example. rewrite Hprev.
  generalize Workflow.quick_filters. intros qf.
  destruct (Z.leb_spec 100 c), (Z.leb_spec c 5000); cbn [andb]; split.
  - intros [Hin | [Hin | []]]; [discriminate |].
    injection Hin as <- <-. repeat split; lia.
  - intros (_ & -> & ->). right. left. reflexivity.
  - intros [Hin | []]. discriminate.
  - intros (Hc & _). lia.
  - intros [Hin | []]. discriminate.
  - intros (Hc & _). lia.
  - intros [Hin | []]. discriminate.
  - intros (Hc & _). lia.
Qed.

Lemma quick_example_band_witness :
  In (EvEnrich Workflow.quick_filters 500)
     (Workflow.quick_example (fun _ => Ok 100)).
Proof.
  apply (quick_example_band (fun _ => Ok 100) 100 eq_refl).
  repeat split; lia.
Defined.

(** ** [simple_example.py]: reaching the enrichment prompt *)



Lemma enrich_payload_keys_witness :
  Workflow.enrich_payload Workflow.quick_filters 500 (Some EmptyString) None
    (Some ∅) !! "list_name" = None /\
  Workflow.enrich_payload Workflow.quick_filters 500 (Some "Colorado CEOs")
    None None !! "list_name" = Some (PStr "Colorado CEOs") /\
  Workflow.enrich_payload Workflow.quick_filters 500 (Some "Colorado CEOs")
    None None !! "organization" = None.
Proof.
  split; [| split].
  - destruct (enrich_payload_keys Workflow.quick_filters 500
                (Some EmptyString) None (Some ∅))
      as (_ & _ & Hname & _).
    exact Hname.
  - destruct (enrich_payload_keys Workflow.quick_filters 500
                (Some "Colorado CEOs") None None)
      as (_ & _ & Hname & _).
    exact Hname.
  - destruct (enrich_payload_keys Workflow.quick_filters 500
                (Some "Colorado CEOs") None None)
      as (_ & _ & _ & _ & _ & Hother).
    apply Hother; discriminate.
Defined.

(** X25. When every analysis is the manual one (no client, or a call that
    fails), its verdict depends on the one previewed count alone: for a
    count strictly between 0 and 10000 the refinement loop stops after the
    first analysis without asking; for any other count a user who keeps
    answering "y" gets the same analysis three times, since nothing is
    previewed again. *)
Theorem manual_analysis_refine (w : Workflow.World) (c : Z) (l : list event) :
  (forall i, Workflow.analyze_search_results w i
             = Ok (Workflow.manual_refinement_prompt c)) ->
  (0 < c < 10000 ->
   Workflow.refine w (seq 1 3) l = (None, l ++ [EvAdvise 1])) /\
  (c <= 0 \/ 10000 <= c ->
   (forall i, says_y (Workflow.input w ApplySuggested i) = true) ->
   Workflow.refine w (seq 1 3) l
   = (None,
      l ++ [EvAdvise 1;
            EvInput ApplySuggested (Workflow.input w ApplySuggested 1);
            EvAdvise 2;
            EvInput ApplySuggested (Workflow.input w ApplySuggested 2);
            EvAdvise 3;
            EvInput ApplySuggested (Workflow.input w ApplySuggested 3)])).
Proof.
  intros Hmanual. split.
  - intros Hc. cbn [seq Workflow.refine]. rewrite Hmanual.
    unfold Workflow.manual_refinement_prompt.
    destruct (Z.gtb_spec c 0); [| lia].
    destruct (Z.ltb_spec c 10000); [| lia]. reflexivity.
  - intros Hc Hyes.
    assert (Hstop : Workflow.manual_refinement_prompt c = false).
    { unfold Workflow.manual_refinement_prompt.
      destruct (Z.gtb_spec c 0); [| reflexivity].
      destruct (Z.ltb_spec c 10000); [lia | reflexivity]. }
    cbn [seq Workflow.refine]. rewrite !Hmanual, Hstop, !Hyes.
    cbn [negb]. rewrite <- !app_assoc. reflexivity.
Qed.

Lemma manual_analysis_refine_witness :
  Workflow.refine
    (Workflow.mkWorld ∅ (fun _ => Ok 350)
       (fun _ => Ok (Workflow.manual_refinement_prompt 350))
       (fun _ _ => "n") (fun _ _ => Ok tt))
    (seq 1 3) []
  = (None, [EvAdvise 1]) /\
  Workflow.refine
    (Workflow.mkWorld ∅ (fun _ => Ok 0)
       (fun _ => Ok (Workflow.manual_refinement_prompt 0))
       (fun _ _ => "y") (fun _ _ => Ok tt))
    (seq 1 3) []
  = (None,
     [EvAdvise 1; EvInput ApplySuggested "y";
      EvAdvise 2; EvInput ApplySuggested "y";
      EvAdvise 3; EvInput ApplySuggested "y"]).
Proof.
  split.
  - destruct (manual_analysis_refine
                (Workflow.mkWorld ∅ (fun _ => Ok 350)
                   (fun _ => Ok (Workflow.manual_refinement_prompt 350))
                   (fun _ _ => "n") (fun _ _ => Ok tt))
                350 [] (fun _ => eq_refl)) as (Hin & _).
    apply Hin. lia.
  - destruct (manual_analysis_refine
                (Workflow.mkWorld ∅ (fun _ => Ok 0)
                   (fun _ => Ok (Workflow.manual_refinement_prompt 0))
                   (fun _ _ => "y") (fun _ _ => Ok tt))
                0 [] (fun _ => eq_refl)) as (_ & Hout).
    apply Hout; [lia | intros i; reflexivity].
Defined.

(** ** Changes accepted in the last iteration *)


